(** * The lazy evaluation framework: tracker and step-disclosure client

    A shallow embedding of the exported cells of
    [nbs/03_Lazy Evaluation Framework.ipynb]: the [LazyState] dataclass, the
    [LazyEvaluationClient] class with its patched [ask_question] method, the
    module-level prompt [lazy_system_p] and the [lazy] entry point.

    Python values are modelled as follows.
    - [str] is [string]: the sequence of the code points of the text, for
      texts whose code points are below 256 (one [ascii] per code point).
    - [int] is [Z].
    - [List[str]] is [list string]; [Optional[T]] is [option T].
    - A raised exception is a value of [exn]; a call that may raise returns a
      [result].
    - The module's global namespace is a [gmap string string] from names to
      the texts bound to them. *)

From Stdlib Require Import ZArith NArith Ascii String List Lia.
From stdpp Require Import base option list strings gmap.

Local Open Scope Z_scope.

(** ** Python text primitives *)

Module Py.

(** The characters the source writes with an escape. *)
Definition LF : ascii := "010"%char.
Definition TAB : ascii := "009"%char.
Definition CR : ascii := "013"%char.
Definition BACKSLASH : ascii := "092"%char.
Definition SQUOTE : ascii := "039"%char.
Definition DQUOTE : ascii := "034"%char.

Definition nl : string := String LF "".
Definition dq : string := String DQUOTE "".

(** [n] spaces: the indentation inside the triple-quoted literals. *)
Fixpoint spaces (n : nat) : string :=
  match n with
  | O => ""
  | S k => String " " (spaces k)
  end.

(** [str.isspace] on one code point below 256: the ASCII white space
    (9-13, 28-32) and the two Latin-1 ones, NEL (133) and NBSP (160). *)
Definition isspace (a : ascii) : bool :=
  let n := N_of_ascii a in
  ((9 <=? n)%N && (n <=? 13)%N) || ((28 <=? n)%N && (n <=? 32)%N)
  || (n =? 133)%N || (n =? 160)%N.

Fixpoint lstrip (s : string) : string :=
  match s with
  | "" => ""
  | String a r => if isspace a then lstrip r else s
  end.

Fixpoint rstrip (s : string) : string :=
  match s with
  | "" => ""
  | String a r =>
      match rstrip r with
      | "" => if isspace a then "" else String a ""
      | r' => String a r'
      end
  end.

(** [s.strip()]: drop the leading and the trailing white space. *)
Definition strip (s : string) : string := rstrip (lstrip s).

(** [str.isprintable] on one code point below 256: the ASCII range 32-126,
    and the Latin-1 range 161-255 without the soft hyphen (173). *)
Definition isprintable (a : ascii) : bool :=
  let n := N_of_ascii a in
  ((32 <=? n)%N && (n <=? 126)%N) || ((161 <=? n)%N && negb (n =? 173)%N).

Definition hex_digit (n : N) : ascii :=
  if (n <? 10)%N then ascii_of_N (48 + n) else ascii_of_N (87 + n).

(** The two-digit escape [\xNN] of a code point below 256. *)
Definition hex_escape (a : ascii) : string :=
  let n := N_of_ascii a in
  String BACKSLASH (String "x"
    (String (hex_digit (n / 16)) (String (hex_digit (n mod 16)) ""))).

(** One character of [repr(str)], inside the quotes [quote]. *)
Definition repr_char (quote a : ascii) : string :=
  let n := N_of_ascii a in
  if Ascii.eqb a quote || Ascii.eqb a BACKSLASH then String BACKSLASH (String a "")
  else if Ascii.eqb a TAB then String BACKSLASH "t"
  else if Ascii.eqb a LF then String BACKSLASH "n"
  else if Ascii.eqb a CR then String BACKSLASH "r"
  else if (n <? 32)%N || (n =? 127)%N then hex_escape a
  else if (n <? 127)%N then String a ""
  else if negb (isprintable a) then hex_escape a
  else String a "".

Fixpoint repr_body (quote : ascii) (s : string) : string :=
  match s with
  | "" => ""
  | String a r => repr_char quote a +:+ repr_body quote r
  end.

Fixpoint contains (c : ascii) (s : string) : bool :=
  match s with
  | "" => false
  | String a r => Ascii.eqb a c || contains c r
  end.

(** [repr] picks double quotes only for a text that has a single quote and
    no double quote. *)
Definition repr_quote (s : string) : ascii :=
  if contains SQUOTE s && negb (contains DQUOTE s) then DQUOTE else SQUOTE.

(** [repr(s)] for a [str]. *)
Definition repr_str (s : string) : string :=
  let q := repr_quote s in
  String q (repr_body q s +:+ String q "").

(** [sep.join(l)]. *)
Fixpoint join (sep : string) (l : list string) : string :=
  match l with
  | [] => ""
  | [x] => x
  | x :: r => x +:+ sep +:+ join sep r
  end.

(** [repr(l)] for a list of [str], which is also what [f"{l}"] renders. *)
Definition repr_list (l : list string) : string :=
  "[" +:+ join ", " (map repr_str l) +:+ "]".

(** Exceptions the modelled code raises. [BackendFault] stands for whatever
    the backend call itself raises. *)
Inductive exn : Type :=
  | ValueError (msg : string)
  | NameError (name : string)
  | AttributeError (msg : string)
  | IndexError (msg : string)
  | BackendFault (info : string).

Inductive result (A : Type) : Type :=
  | Ok (a : A)
  | Raise (e : exn).
Arguments Ok {A} a.
Arguments Raise {A} e.

(** An [int] that fits the index type [Py_ssize_t] of a 64-bit build. *)
Definition fits_ssize (i : Z) : bool := (- 2 ^ 63 <=? i) && (i <? 2 ^ 63).

(** The [IndexError] of [l[i]] for an index outside the list. An index that
    does not fit [Py_ssize_t] is refused with a message of its own; a list
    has fewer than [2 ^ 63] elements, so such an index is outside it. *)
Definition index_error (i : Z) : exn :=
  IndexError (if fits_ssize i then "list index out of range"
              else "cannot fit 'int' into an index-sized integer").

(** [l[i]] with Python's negative indices. *)
Definition index {A : Type} (l : list A) (i : Z) : result A :=
  let n := Z.of_nat (length l) in
  let j := if i <? 0 then i + n else i in
  if (0 <=? j) && (j <? n) then
    match l !! Z.to_nat j with
    | Some x => Ok x
    | None => Raise (index_error i)
    end
  else Raise (index_error i).

(** Reading a [repr] back, to show that it loses nothing. [unhex] reads one
    hexadecimal digit, [unrepr_body] the escaped characters up to the closing
    quote; it returns the text and what follows the quote. *)
Definition unhex (a : ascii) : option N :=
  let n := N_of_ascii a in
  if (48 <=? n)%N && (n <=? 57)%N then Some (n - 48)%N
  else if (97 <=? n)%N && (n <=? 102)%N then Some (n - 87)%N
  else None.

Fixpoint unrepr_body (quote : ascii) (s : string) : option (string * string) :=
  match s with
  | "" => None
  | String c r =>
      if Ascii.eqb c quote then Some ("", r)
      else if Ascii.eqb c BACKSLASH then
        match r with
        | "" => None
        | String e r1 =>
            if Ascii.eqb e "x" then
              match r1 with
              | String h1 (String h2 r2) =>
                  match unhex h1, unhex h2, unrepr_body quote r2 with
                  | Some n1, Some n2, Some (body, rest) =>
                      Some (String (ascii_of_N (16 * n1 + n2)) body, rest)
                  | _, _, _ => None
                  end
              | _ => None
              end
            else
              let a := if Ascii.eqb e "t" then TAB
                       else if Ascii.eqb e "n" then LF
                       else if Ascii.eqb e "r" then CR
                       else e in
              match unrepr_body quote r1 with
              | Some (body, rest) => Some (String a body, rest)
              | None => None
              end
        end
      else
        match unrepr_body quote r with
        | Some (body, rest) => Some (String c body, rest)
        | None => None
        end
  end.

End Py.

Import Py.

(** ** The progress tracker: [LazyState] *)

Record LazyState : Type := mkLazyState {
  problem : string;
  steps : list string;
  current_step : Z
}.

(** [__post_init__]: the problem is appended to [steps]. *)
Definition post_init (self : LazyState) : LazyState :=
  mkLazyState (problem self) (steps self ++ [problem self]) (current_step self).

(** The generated dataclass constructor followed by [__post_init__]. Nothing
    in it inspects [problem]. *)
Definition LazyState_init (problem : string) (steps : list string)
    (current_step : Z) : result LazyState :=
  Ok (post_init (mkLazyState problem steps current_step)).

(** [LazyState(problem=problem)]: [steps] from [default_factory=list],
    [current_step] from its default 0. *)
Definition create (problem : string) : result LazyState :=
  LazyState_init problem [] 0.

Definition add_step (self : LazyState) (step : string) : LazyState :=
  mkLazyState (problem self) (steps self ++ [step]) (current_step self + 1).

Definition get_context (self : LazyState) : string :=
  "Problem: " +:+ problem self +:+ " " +:+ nl +:+ " Steps so far: "
  +:+ repr_list (steps self).

Definition refresh (self : LazyState) : LazyState :=
  mkLazyState (problem self) [problem self] 0.

(** A run of [add_step] calls, in order. *)
Definition add_steps (self : LazyState) (new : list string) : LazyState :=
  fold_left add_step new self.

(** ** The backend capability *)

(** One role-tagged message of a request. *)
Record MessageParam : Type := mkMessage {
  role : string;
  content : string
}.

(** The keyword arguments of [client.messages.create]. *)
Record Request : Type := mkRequest {
  req_system : string;
  req_model : string;
  req_messages : list MessageParam;
  req_max_tokens : Z
}.

(** A content block of a [Message], seen through its [text] attribute, which
    the source allows to be [None]. *)
Record Block : Type := mkBlock { text : option string }.

(** What a backend call does: it raises, or returns a [Message] with its list
    of content blocks. *)
Inductive Reply : Type :=
  | Fault (info : string)
  | Response (blocks : list Block).

(** The transport client. It is external: its answer is any function of the
    requests it has received so far, the last one being the current one. *)
Record AnthropicVertex : Type := mkClient {
  respond : list Request -> Reply
}.

Record LLM : Type := mkLLM {
  llm_client : AnthropicVertex;
  llm_model : string
}.

(** ** The module-level prompt *)

Definition lazy_system_p : string :=
  nl +:+ spaces 8 +:+ "You are a helpful assistant that can help with math problems."
  +:+ nl +:+ spaces 8 +:+ "You will be given a problem and a list of steps as context, the format will be:"
  +:+ nl +:+ spaces 16
  +:+ nl +:+ spaces 8 +:+ "PROBLEM: <problem>"
  +:+ nl +:+ spaces 8 +:+ "STEPS: <steps>"
  +:+ nl
  +:+ nl +:+ spaces 8 +:+ "Your job is to complete the next step and only the next step in the problem-solving process. You should never give more than one step."
  +:+ nl +:+ spaces 8 +:+ "If you evaluate that the problem is done, respond with "
  +:+ dq +:+ "PROBLEM DONE" +:+ dq
  +:+ nl +:+ spaces 8.

(** The text-valued names of the module's global namespace once its exported
    cells have run, over the names [imported] that the star imports bring
    in: the only module-level assignment of an exported cell binds
    [lazy_system_p]. *)
Definition exported_globals (imported : gmap string string) : gmap string string :=
  <["lazy_system_p" := lazy_system_p]> imported.

(** The text the backend is told to answer with when no step remains. *)
Definition SENTINEL : string := "PROBLEM DONE".

(** ** The step-disclosure client: [LazyEvaluationClient] *)

Record LazyEvaluationClient : Type := mkLazyEvaluationClient {
  model : string;
  client : AnthropicVertex;
  max_tokens : Z;
  state : option LazyState;
  system : string;
  question_history : list string
}.

(** Everything a method call can read or change: the global namespace, the
    requests the backend has received, and the object [self]. *)
Record Session : Type := mkSession {
  globals : gmap string string;
  calls : list Request;
  self : LazyEvaluationClient
}.

(** Method bodies are written in a state-and-exception monad over [Session]:
    a raise keeps the session as it is at that point. *)
Definition M (A : Type) : Type := Session -> result A * Session.

Definition raise {A : Type} (e : exn) : M A := fun w => (Raise e, w).

#[global] Instance M_ret : MRet M := fun A a w => (Ok a, w).

#[global] Instance M_bind : MBind M := fun A B k m w =>
  match m w with
  | (Ok a, w') => k a w'
  | (Raise e, w') => (Raise e, w')
  end.

Definition lift {A : Type} (r : result A) : M A := fun w => (r, w).

Definition get_self : M LazyEvaluationClient := fun w => (Ok (self w), w).

Definition set_self (c : LazyEvaluationClient) : M unit :=
  fun w => (Ok tt, mkSession (globals w) (calls w) c).

(** Reading a global name that is not bound raises [NameError]. *)
Definition load_global (name : string) : M string :=
  fun w =>
    match globals w !! name with
    | Some v => (Ok v, w)
    | None => (Raise (NameError name), w)
    end.

(** [client.messages.create(...)]: the request reaches the backend, which
    answers or raises. *)
Definition messages_create (c : AnthropicVertex) (req : Request) : M (list Block) :=
  fun w =>
    let log := calls w ++ [req] in
    let w' := mkSession (globals w) log (self w) in
    match respond c log with
    | Response blocks => (Ok blocks, w')
    | Fault info => (Raise (BackendFault info), w')
    end.

Definition set_state (c : LazyEvaluationClient) (st : option LazyState)
    : LazyEvaluationClient :=
  mkLazyEvaluationClient (model c) (client c) (max_tokens c) st (system c)
    (question_history c).

Definition set_question_history (c : LazyEvaluationClient) (h : list string)
    : LazyEvaluationClient :=
  mkLazyEvaluationClient (model c) (client c) (max_tokens c) (state c) (system c) h.

(** [self.state.add_step(step)] *)
Definition state_add_step (step : string) : M unit :=
  c ← get_self;
  match state c with
  | Some st => set_self (set_state c (Some (add_step st step)))
  | None => raise (AttributeError "'NoneType' object has no attribute 'add_step'")
  end.

(** [self.question_history.append(x)] *)
Definition history_append (x : string) : M unit :=
  c ← get_self;
  set_self (set_question_history c (question_history c ++ [x])).

(** [__init__]: the assignments in order; the fifth reads the global name
    [system]. *)
Definition LazyEvaluationClient_init (g : gmap string string) (llm : LLM)
    (max_tokens : Z) (state : option LazyState) : result LazyEvaluationClient :=
  match g !! "system" with
  | Some sys =>
      Ok (mkLazyEvaluationClient (llm_model llm) (llm_client llm) max_tokens
            state sys [])
  | None => Raise (NameError "system")
  end.

(** [max_tokens: int = 100] *)
Definition default_max_tokens : Z := 100.

Definition initalize_problem (problem : string) : M unit :=
  c ← get_self;
  st ← lift (create problem);
  set_self (set_state c (Some st)).

Definition get_current_step : M string :=
  c ← get_self;
  match state c with
  | Some st => lift (index (steps st) (current_step st))
  | None => raise (AttributeError "'NoneType' object has no attribute 'steps'")
  end.

Definition not_initialized : exn :=
  ValueError "Problem is not initialized, call initalize_problem first".

Definition get_next_step : M string :=
  c ← get_self;
  match state c with
  | None => raise not_initialized
  | Some st =>
      let messages := [mkMessage "user" (get_context st)] in
      sys ← load_global "system";
      blocks ← messages_create (client c)
                  (mkRequest sys (model c) messages (max_tokens c));
      b ← lift (index blocks 0);
      match text b with
      | Some next_step =>
          state_add_step (strip next_step);;
          mret (strip next_step)
      | None => raise (ValueError "No next step found")
      end
  end.

(** The two f-strings of [ask_question]. *)
Definition current_state_text (sys problem context current : string) : string :=
  nl +:+ spaces 8 +:+ "System: " +:+ sys
  +:+ nl +:+ spaces 8 +:+ "Problem: " +:+ problem +:+ nl
  +:+ nl +:+ spaces 8 +:+ "Context: " +:+ context
  +:+ nl +:+ spaces 8 +:+ "Current step: " +:+ current
  +:+ nl +:+ spaces 4.

Definition prompt_text (history : list string) (question : string) : string :=
  nl +:+ spaces 8 +:+ "Question History: " +:+ repr_list history
  +:+ nl +:+ spaces 8 +:+ "Question: " +:+ question +:+ nl
  +:+ nl +:+ spaces 8 +:+ "Please answer the question without advancing to the next step."
  +:+ nl +:+ spaces 8 +:+ "If you are asked to provide an example for a specific step, please provide an example that is not in the current context."
  +:+ nl +:+ spaces 4.

(** [response.content[0].text.strip()] *)
Definition first_text_stripped (blocks : list Block) : result string :=
  match index blocks 0 with
  | Ok b =>
      match text b with
      | Some t => Ok (strip t)
      | None => Raise (AttributeError "'NoneType' object has no attribute 'strip'")
      end
  | Raise e => Raise e
  end.

Definition ask_question (question : string) : M string :=
  c ← get_self;
  match state c with
  | None => raise (AttributeError "'NoneType' object has no attribute 'problem'")
  | Some st =>
      current ← lift (index (steps st) (current_step st));
      let current_state :=
        current_state_text (system c) (problem st) (get_context st) current in
      let prompt := prompt_text (question_history c) question in
      let messages := [mkMessage "user" prompt] in
      blocks ← messages_create (client c)
                  (mkRequest current_state (model c) messages (max_tokens c));
      history_append question;;
      answer ← lift (first_text_stripped blocks);
      history_append answer;;
      lift (first_text_stripped blocks)
  end.

(** The [lazy] entry point patched onto the transport client; [model] is a
    global name. *)
Definition lazy (g : gmap string string) (this : AnthropicVertex)
    (problem : string) : result LazyEvaluationClient :=
  match create problem with
  | Raise e => Raise e
  | Ok st =>
      match g !! "model" with
      | None => Raise (NameError "model")
      | Some m =>
          LazyEvaluationClient_init g (mkLLM this m) default_max_tokens (Some st)
      end
  end.

(** ** Interleaved use *)

Inductive command : Type :=
  | Next
  | Ask (question : string).

Definition exec (c : command) : M string :=
  match c with
  | Next => get_next_step
  | Ask q => ask_question q
  end.

(** One executed call: the session before, the command, what it returned or
    raised, the session after. *)
Record Event : Type := mkEvent {
  before : Session;
  cmd : command;
  outcome : result string;
  after : Session
}.

(** The caller issues the commands one after the other, going on after a
    raise as the interactive loop's operator may. *)
Fixpoint run (cs : list command) (w : Session) : list Event :=
  match cs with
  | [] => []
  | c :: cs' =>
      let '(r, w') := exec c w in
      mkEvent w c r w' :: run cs' w'
  end.

Definition final (cs : list command) (w : Session) : Session :=
  fold_left (fun w c => snd (exec c w)) cs w.

(** The question history is one flat list: a question, its answer, the next
    question, ... [flat_log] is the list that a sequence of
    (question, answer) pairs is stored as. *)
Definition flat_log (pairs : list (string * string)) : list string :=
  flat_map (fun qa => [fst qa; snd qa]) pairs.

(** The (question, answer) pairs of the [Ask] events that returned, in
    order. *)
Definition asked (evs : list Event) : list (string * string) :=
  flat_map (fun ev =>
              match cmd ev, outcome ev with
              | Ask q, Ok a => [(q, a)]
              | _, _ => []
              end) evs.

(** An event in which [ask_question], if that is what was called, returned. *)
Definition ask_returned (ev : Event) : Prop :=
  match cmd ev, outcome ev with
  | Ask _, Raise _ => False
  | _, _ => True
  end.

(** What an [Ask] event leaves alone: the tracker, the global namespace and
    every attribute of the client but [question_history], which only
    grows. *)
Definition ask_frame (ev : Event) : Prop :=
  match cmd ev with
  | Next => True
  | Ask _ =>
      state (self (after ev)) = state (self (before ev)) /\
      set_question_history (self (after ev))
        (question_history (self (before ev))) = self (before ev) /\
      globals (after ev) = globals (before ev) /\
      exists more,
        question_history (self (after ev))
        = question_history (self (before ev)) ++ more
  end.

(** The request [get_next_step] sends. *)
Definition next_request (w : Session) (st : LazyState) (sys : string) : Request :=
  mkRequest sys (model (self w)) [mkMessage "user" (get_context st)]
    (max_tokens (self w)).

(** The request [ask_question] sends. *)
Definition ask_request (w : Session) (st : LazyState) (cur q : string) : Request :=
  mkRequest
    (current_state_text (system (self w)) (problem st) (get_context st) cur)
    (model (self w))
    [mkMessage "user" (prompt_text (question_history (self w)) q)]
    (max_tokens (self w)).

Definition with_calls (w : Session) (log : list Request) : Session :=
  mkSession (globals w) log (self w).

Definition with_self (w : Session) (c : LazyEvaluationClient) : Session :=
  mkSession (globals w) (calls w) c.

(** A namespace in which [system] is bound, as in the session that produced
    the notebook's outputs. *)
Definition session_globals : gmap string string :=
  <["system" := lazy_system_p]> (exported_globals ∅).

(** A backend that answers the sentinel to the first request and a further
    step to every later one. *)
Definition done_then_more : AnthropicVertex :=
  mkClient (fun log =>
    if (length log <=? 1)%nat
    then Response [mkBlock (Some (" PROBLEM DONE" +:+ nl))]
    else Response [mkBlock (Some "One more step")]).

Definition demo_session (st : option LazyState) : Session :=
  mkSession session_globals []
    (mkLazyEvaluationClient "claude" done_then_more default_max_tokens st
       lazy_system_p []).

(** ** The tracker under any sequence of its two mutators *)

Inductive tracker_call : Type :=
  | CallAddStep (step : string)
  | CallRefresh.

Definition call_tracker (s : LazyState) (c : tracker_call) : LazyState :=
  match c with
  | CallAddStep step => add_step s step
  | CallRefresh => refresh s
  end.

(** [current_step] is the index of the last element of [steps]. *)
Definition tracker_wf (s : LazyState) : Prop :=
  current_step s + 1 = Z.of_nat (length (steps s)).

(** The texts that the [Next] events of a run returned, in order. *)
Definition disclosed (evs : list Event) : list string :=
  flat_map (fun ev =>
              match cmd ev, outcome ev with
              | Next, Ok r => [r]
              | _, _ => []
              end) evs.

(** A text made of white space only. *)
Fixpoint all_space (s : string) : bool :=
  match s with
  | "" => true
  | String a r => isspace a && all_space r
  end.

(** A text that does not start with white space. *)
Definition no_leading_space (s : string) : Prop :=
  match s with
  | "" => True
  | String a _ => isspace a = false
  end.

(** ** The notebook's driver loops *)

(** How a loop stops: by its [break], by an exception that leaves it, or,
    for the loop that reads commands, because no input is left. *)
Inductive LoopEnd : Type :=
  | Broke
  | Aborted (e : exn)
  | EndOfInput.

(** The loop that asks for steps until the sentinel comes back:
    [while True: next_step = lazy_lm.get_next_step(); ...]. It may run for
    ever, so the model counts iterations: [None] means that [fuel]
    iterations did not end it. The second component lists the arguments of
    the [print] calls. *)
Fixpoint solve_loop (fuel : nat) (w : Session)
    : option LoopEnd * list string * Session :=
  match fuel with
  | O => (None, [], w)
  | S k =>
      match get_next_step w with
      | (Raise e, w1) => (Some (Aborted e), [], w1)
      | (Ok next_step, w1) =>
          if String.eqb next_step "PROBLEM DONE"
          then (Some Broke, ["Problem solved!"], w1)
          else
            let '(e, out, w2) := solve_loop k w1 in
            (e, next_step :: out, w2)
      end
  end.

Definition RULE : string := "-------------------------------------------------".

(** [x in l] for a list of texts. *)
Definition str_in (x : string) (l : list string) : bool :=
  existsb (String.eqb x) l.

(** The loop that reads commands. [inputs] are the lines that the [input]
    calls return, one after the other; when none is left, [input] raises
    and the loop ends. The second component lists the arguments of the
    [print] calls. *)
Fixpoint interactive_loop (inputs : list string) (w : Session)
    : LoopEnd * list string * Session :=
  match inputs with
  | [] => (EndOfInput, [], w)
  | user_input :: rest =>
      if str_in user_input ["next"; "n"] then
        match get_next_step w with
        | (Raise e, w1) => (Aborted e, [RULE; "User asked for next step"], w1)
        | (Ok next_step, w1) =>
            if String.eqb next_step "PROBLEM DONE"
            then (Broke, [RULE; "User asked for next step"; "Problem solved!"], w1)
            else
              let '(e, out, w2) := interactive_loop rest w1 in
              (e, [RULE; "User asked for next step"; RULE;
                   "Next step: " +:+ next_step] ++ out, w2)
        end
      else if str_in user_input ["question"; "q"] then
        match rest with
        | [] => (EndOfInput, [], w)
        | user_question :: rest' =>
            match ask_question user_question w with
            | (Raise e, w1) => (Aborted e, [], w1)
            | (Ok r, w1) =>
                let '(e, out, w2) := interactive_loop rest' w1 in
                (e, [RULE; "User Question: " +:+ user_question; RULE;
                     "Model Answer: " +:+ r] ++ out, w2)
            end
        end
      else interactive_loop rest w
  end.

(** The calls that the input lines ask for. *)
Fixpoint commands_of (inputs : list string) : list command :=
  match inputs with
  | [] => []
  | user_input :: rest =>
      if str_in user_input ["next"; "n"] then Next :: commands_of rest
      else if str_in user_input ["question"; "q"] then
        match rest with
        | [] => []
        | user_question :: rest' => Ask user_question :: commands_of rest'
        end
      else commands_of rest
  end.

(** An event after which the reading loop goes on: the call returned, and
    what [get_next_step] returned is not the sentinel. *)
Definition goes_on (ev : Event) : Prop :=
  match outcome ev with
  | Raise _ => False
  | Ok r =>
      match cmd ev with
      | Next => r <> SENTINEL
      | Ask _ => True
      end
  end.

(** A backend that answers without content to the first request and with a
    text to every later one. *)
Definition silent_then_answer : AnthropicVertex :=
  mkClient (fun log =>
    if (length log <=? 1)%nat
    then Response []
    else Response [mkBlock (Some "4")]).

(** A backend that answers one step and then the sentinel. *)
Definition step_then_done : AnthropicVertex :=
  mkClient (fun log =>
    if (length log <=? 1)%nat
    then Response [mkBlock (Some ("Add 2 and 2 " +:+ nl))]
    else Response [mkBlock (Some "PROBLEM DONE")]).

(** A backend whose answers carry no content block. *)
Definition silent : AnthropicVertex := mkClient (fun _ => Response []).

Definition session_with (backend : AnthropicVertex) (st : option LazyState)
    : Session :=
  mkSession session_globals []
    (mkLazyEvaluationClient "claude" backend default_max_tokens st
       lazy_system_p []).

(** * Properties *)

(** ** Worked examples *)

Example scenario_create :
  create "2+2?" = Ok (mkLazyState "2+2?" ["2+2?"] 0).
Proof. reflexivity. Qed.

Example scenario_append_reset :
  let s := add_step (mkLazyState "2+2?" ["2+2?"] 0) "Add 2 and 2" in
  s = mkLazyState "2+2?" ["2+2?"; "Add 2 and 2"] 1
  /\ refresh s = mkLazyState "2+2?" ["2+2?"] 0.
Proof. split; reflexivity. Qed.

Example context_of_notebook :
  get_context (mkLazyState "a?" ["a?"; "it's"; "x" +:+ nl +:+ "y"] 2)
  = "Problem: a? " +:+ nl +:+ " Steps so far: ['a?', " +:+ dq +:+ "it's"
    +:+ dq +:+ ", 'x\ny']".
Proof. reflexivity. Qed.

Example context_of_first_cells :
  get_context
    (mkLazyState "What is the result of f(x) = 3x + 2 when x = 5?"
       ["What is the result of f(x) = 3x + 2 when x = 5?";
        "First, we need substitute x in the function with 5"] 1)
  = "Problem: What is the result of f(x) = 3x + 2 when x = 5? " +:+ nl
    +:+ " Steps so far: ['What is the result of f(x) = 3x + 2 when x = 5?', "
    +:+ "'First, we need substitute x in the function with 5']".
Proof. reflexivity. Qed.

Example run_example :
  map outcome
    (run [Next; Ask "why?"; Next]
       (demo_session (Some (mkLazyState "2+2?" ["2+2?"] 0))))
  = [Ok "PROBLEM DONE"; Ok "One more step"; Ok "One more step"].
Proof. vm_compute. reflexivity. Qed.

Example interactive_example :
  fst (interactive_loop ["n"; "help"; "q"; "why?"; "next"; "n"]
         (session_with step_then_done (Some (mkLazyState "2+2?" ["2+2?"] 0))))
  = (Broke,
     [RULE; "User asked for next step"; RULE; "Next step: Add 2 and 2";
      RULE; "User Question: why?"; RULE; "Model Answer: PROBLEM DONE";
      RULE; "User asked for next step"; "Problem solved!"]).
Proof. vm_compute. reflexivity. Qed.

Example index_examples :
  index ["a"; "b"] 1 = Ok "b" /\ index ["a"; "b"] (-2) = Ok "a" /\
  index ["a"; "b"] 2 = Raise (IndexError "list index out of range") /\
  index ["a"; "b"] (2 ^ 63)
  = Raise (IndexError "cannot fit 'int' into an index-sized integer").
Proof. repeat split. Qed.

Example strip_example :
  strip (" " +:+ nl +:+ "PROBLEM DONE " +:+ nl) = "PROBLEM DONE".
Proof. reflexivity. Qed.

(** ** Texts *)

Section Texts.

#[local] Arguments String.append !_ _ / : simpl nomatch.

Lemma append_assoc (a b c : string) : (a +:+ b) +:+ c = a +:+ (b +:+ c).
Proof. induction a as [|x a IH]; cbn [String.append]; congruence. Qed.

Lemma append_inv_head (a b c : string) : a +:+ b = a +:+ c -> b = c.
Proof.
  induction a as [|x a IH]; cbn [String.append]; intros H;
    [exact H | injection H; auto].
Qed.

Lemma substring_append (a b c : string) :
  substring (String.length a) (String.length b) (a +:+ b +:+ c) = b.
Proof.
  induction a as [|x a IH]; simpl; [|exact IH].
  induction b as [|y b IHb]; simpl.
  - now destruct c.
  - now rewrite IHb.
Qed.

(** Reading back one escaped character. *)
Lemma unrepr_char (q a : ascii) (t : string) :
  q = SQUOTE \/ q = DQUOTE ->
  unrepr_body q (repr_char q a +:+ t)
  = match unrepr_body q t with
    | Some (body, rest) => Some (String a body, rest)
    | None => None
    end.
Proof.
  intros [-> | ->];
    destruct a as [[] [] [] [] [] [] [] []]; reflexivity.
Qed.

Lemma unrepr_body_repr (q : ascii) (s t : string) :
  q = SQUOTE \/ q = DQUOTE ->
  unrepr_body q (repr_body q s +:+ String q t) = Some (s, t).
Proof.
  intros Hq. induction s as [|a s IH].
  - simpl. now rewrite Ascii.eqb_refl.
  - cbn [repr_body]. rewrite append_assoc, unrepr_char, IH by exact Hq.
    reflexivity.
Qed.

Lemma repr_quote_cases (s : string) : repr_quote s = SQUOTE \/ repr_quote s = DQUOTE.
Proof. unfold repr_quote. destruct (_ && _); auto. Qed.

(** No [repr] of a text is a proper prefix of another: what follows it is
    determined. *)
Lemma repr_str_prefix_free (s1 s2 t1 t2 : string) :
  repr_str s1 +:+ t1 = repr_str s2 +:+ t2 -> s1 = s2 /\ t1 = t2.
Proof.
  unfold repr_str. cbn [String.append]. intros H.
  injection H as Hq Hb. rewrite <- Hq in Hb.
  rewrite !append_assoc in Hb. cbn [String.append] in Hb.
  apply (f_equal (unrepr_body (repr_quote s1))) in Hb.
  rewrite !unrepr_body_repr in Hb by apply repr_quote_cases.
  now injection Hb.
Qed.

Lemma join_cons_append (sep x : string) (l : list string) (t : string) :
  join sep (x :: l) +:+ t
  = x +:+ match l with
          | [] => t
          | _ :: _ => sep +:+ join sep l +:+ t
          end.
Proof. destruct l; cbn [join]; [reflexivity | now rewrite !append_assoc]. Qed.

Lemma repr_items_inj (l1 l2 : list string) (t1 t2 : string) :
  join ", " (map repr_str l1) +:+ String "]" t1
  = join ", " (map repr_str l2) +:+ String "]" t2 ->
  l1 = l2.
Proof.
  revert l2. induction l1 as [|x1 l1 IH]; intros [|x2 l2] H.
  - reflexivity.
  - exfalso. cbn [map] in H. rewrite join_cons_append in H.
    unfold repr_str in H. cbn in H.
    destruct (repr_quote_cases x2) as [E | E]; rewrite E in H; discriminate H.
  - exfalso. cbn [map] in H. rewrite join_cons_append in H.
    unfold repr_str in H. cbn in H.
    destruct (repr_quote_cases x1) as [E | E]; rewrite E in H; discriminate H.
  - cbn [map] in H. rewrite !join_cons_append in H.
    apply repr_str_prefix_free in H as [-> H].
    destruct l1 as [|y1 l1], l2 as [|y2 l2]; cbn [map] in H;
      try reflexivity; try discriminate H.
    f_equal. apply IH. cbn [map]. cbn [String.append] in H.
    now injection H.
Qed.

(** [repr] of a list of texts determines the list. *)
Lemma repr_list_inj (l1 l2 : list string) :
  repr_list l1 = repr_list l2 -> l1 = l2.
Proof.
  unfold repr_list. cbn [String.append]. intros H. injection H as H.
  now apply (repr_items_inj l1 l2 "" "").
Qed.

End Texts.

(** ** The tracker *)

Section Tracker.

Lemma add_steps_snoc (s : LazyState) (new : list string) (step : string) :
  add_steps s (new ++ [step]) = add_step (add_steps s new) step.
Proof. unfold add_steps. now rewrite fold_left_app. Qed.

Lemma add_steps_problem (s : LazyState) (new : list string) :
  problem (add_steps s new) = problem s.
Proof.
  induction new as [|step new IH] using rev_ind; [reflexivity|].
  now rewrite add_steps_snoc.
Qed.

Lemma add_steps_steps (s : LazyState) (new : list string) :
  steps (add_steps s new) = steps s ++ new.
Proof.
  induction new as [|step new IH] using rev_ind.
  - cbn. now rewrite app_nil_r.
  - rewrite add_steps_snoc. cbn [add_step steps]. now rewrite IH, app_assoc.
Qed.

Lemma add_steps_current_step (s : LazyState) (new : list string) :
  current_step (add_steps s new) = current_step s + Z.of_nat (length new).
Proof.
  induction new as [|step new IH] using rev_ind.
  - cbn. lia.
  - rewrite add_steps_snoc. cbn [add_step current_step].
    rewrite IH, length_app. cbn [length]. lia.
Qed.

(** C4, as the code has it: [create] succeeds for every problem text, the
    empty one included, with [steps = [problem]] and [current_step = 0];
    no construction is rejected. *)
Theorem create_always_succeeds (p : string) :
  create p = Ok (mkLazyState p [p] 0).
Proof. reflexivity. Qed.

(** C4 fails as stated: [create] on the empty text returns a tracker and
    raises nothing. *)
Lemma create_empty_not_rejected :
  create "" = Ok (mkLazyState "" [""] 0) /\ forall e, create "" <> Raise e.
Proof. split; [reflexivity | discriminate]. Qed.

(** C7: after [create p] and any run of [n] calls of [add_step],
    [current_step] is [n] and [steps[0]] is [p]; after [create] alone
    [steps = [p]] and [current_step = 0]; each [add_step] raises
    [current_step] by exactly one. It holds for every [p], so for every
    non-empty one. *)
Theorem append_monotonicity (p : string) :
  exists s0,
    create p = Ok s0 /\ steps s0 = [p] /\ current_step s0 = 0 /\
    forall new : list string,
      let s := add_steps s0 new in
      current_step s = Z.of_nat (length new) /\
      index (steps s) 0 = Ok p /\
      steps s = p :: new /\
      forall step, current_step (add_step s step) = current_step s + 1.
Proof.
  exists (mkLazyState p [p] 0). repeat split; try reflexivity.
  - rewrite add_steps_current_step. cbn. lia.
  - rewrite add_steps_steps. reflexivity.
  - now rewrite add_steps_steps.
Qed.

(** C8: after [create p] and any run of [add_step] calls, [refresh] gives
    back exactly the state [create p] produced: [steps = [p]],
    [current_step = 0]. It holds for every [p], so for every non-empty one. *)
Theorem refresh_restores_create (p : string) (new : list string) :
  exists s0,
    create p = Ok s0 /\
    refresh (add_steps s0 new) = s0 /\
    steps (refresh (add_steps s0 new)) = [p] /\
    current_step (refresh (add_steps s0 new)) = 0.
Proof.
  exists (mkLazyState p [p] 0). split; [reflexivity|].
  unfold refresh. rewrite add_steps_problem. now cbn.
Qed.

Lemma refresh_idempotent (s : LazyState) : refresh (refresh s) = refresh s.
Proof. reflexivity. Qed.

(** C10: [get_context] reads only [problem] and [steps], so two states that
    agree on them render the same text, whatever their [current_step]. The
    text carries the problem verbatim after its nine-character label, and it
    carries the whole ordered step list: a state with the same problem and
    the same rendering has the same [steps]. *)
Theorem get_context_deterministic (s1 s2 : LazyState) :
  problem s1 = problem s2 -> steps s1 = steps s2 ->
  get_context s1 = get_context s2 /\
  substring 9 (String.length (problem s1)) (get_context s1) = problem s1 /\
  (forall s, problem s = problem s1 -> get_context s = get_context s1 ->
             steps s = steps s1).
Proof.
  intros Hp Hs. split; [|split].
  - unfold get_context. now rewrite Hp, Hs.
  - unfold get_context.
    exact (substring_append "Problem: " (problem s1) _).
  - unfold get_context. intros s -> H.
    do 5 apply append_inv_head in H.
    now apply repr_list_inj.
Qed.

Lemma get_context_deterministic_witness :
  get_context (mkLazyState "2+2?" ["2+2?"; "Add 2 and 2"] 1)
  = get_context (mkLazyState "2+2?" ["2+2?"; "Add 2 and 2"] 7).
Proof.
  exact (proj1 (get_context_deterministic
                  (mkLazyState "2+2?" ["2+2?"; "Add 2 and 2"] 1)
                  (mkLazyState "2+2?" ["2+2?"; "Add 2 and 2"] 7)
                  eq_refl eq_refl)).
Defined.

End Tracker.

(** ** The client *)

Section Client.

Ltac run_monad :=
  unfold mbind, M_bind, mret, M_ret, raise, lift, get_self, set_self,
    load_global, messages_create, state_add_step, history_append; cbn.

(** [get_next_step], path by path. *)
Lemma get_next_step_unfold (w : Session) :
  get_next_step w =
  match state (self w) with
  | None => (Raise not_initialized, w)
  | Some st =>
      match globals w !! "system" with
      | None => (Raise (NameError "system"), w)
      | Some sys =>
          let log := calls w ++ [next_request w st sys] in
          match respond (client (self w)) log with
          | Fault info => (Raise (BackendFault info), with_calls w log)
          | Response [] =>
              (Raise (IndexError "list index out of range"), with_calls w log)
          | Response (b :: _) =>
              match text b with
              | None => (Raise (ValueError "No next step found"), with_calls w log)
              | Some t =>
                  (Ok (strip t),
                   with_self (with_calls w log)
                     (set_state (self w) (Some (add_step st (strip t)))))
              end
          end
      end
  end.
Proof.
  destruct w as [g log [m c mt st sys h]].
  unfold get_next_step, next_request, with_calls, with_self. run_monad.
  destruct st as [st|]; [|reflexivity]. run_monad.
  destruct (g !! "system") as [s|]; [|reflexivity]. cbn.
  destruct (respond c _) as [info | [|[[t|]] rest]]; reflexivity.
Qed.

(** [ask_question], path by path. *)
Lemma ask_question_unfold (q : string) (w : Session) :
  ask_question q w =
  match state (self w) with
  | None =>
      (Raise (AttributeError "'NoneType' object has no attribute 'problem'"), w)
  | Some st =>
      match index (steps st) (current_step st) with
      | Raise e => (Raise e, w)
      | Ok cur =>
          let log := calls w ++ [ask_request w st cur q] in
          let h := question_history (self w) in
          match respond (client (self w)) log with
          | Fault info => (Raise (BackendFault info), with_calls w log)
          | Response blocks =>
              match first_text_stripped blocks with
              | Raise e =>
                  (Raise e,
                   with_self (with_calls w log)
                     (set_question_history (self w) (h ++ [q])))
              | Ok a =>
                  (Ok a,
                   with_self (with_calls w log)
                     (set_question_history (self w) (h ++ [q; a])))
              end
          end
      end
  end.
Proof.
  destruct w as [g log [m c mt st sys h]].
  unfold ask_question, ask_request, with_calls, with_self. run_monad.
  destruct st as [st|]; [|reflexivity]. run_monad.
  destruct (index (steps st) (current_step st)) as [cur|e]; [|reflexivity]. cbn.
  destruct (respond c _) as [info | blocks]; [reflexivity|]. cbn.
  destruct (first_text_stripped blocks) as [a|e]; cbn; [|reflexivity].
  unfold set_question_history; cbn. now rewrite <- app_assoc.
Qed.

(** A call of [get_next_step] that returns has appended what it returns. *)
Lemma get_next_step_returns (w w1 : Session) (r : string) :
  get_next_step w = (Ok r, w1) ->
  exists st sys t rest,
    state (self w) = Some st /\ globals w !! "system" = Some sys /\
    respond (client (self w)) (calls w ++ [next_request w st sys])
    = Response (mkBlock (Some t) :: rest) /\
    r = strip t /\
    w1 = with_self (with_calls w (calls w ++ [next_request w st sys]))
           (set_state (self w) (Some (add_step st r))).
Proof.
  rewrite get_next_step_unfold.
  destruct (state (self w)) as [st|]; [|discriminate].
  destruct (globals w !! "system") as [sys|]; [|discriminate]. cbn zeta.
  destruct (respond _ _) as [info | [|[[t|]] rest]] eqn:E; try discriminate.
  intros [= <- <-]. now exists st, sys, t, rest.
Qed.

(** C2, as the code has it: with a tracker bound and [system] defined, when
    the backend's first content block carries the text [t], [get_next_step]
    sends one request, appends [strip t] to [steps] through [add_step] and
    returns [strip t] -- also when [strip t] is the sentinel. *)
Theorem get_next_step_appends (w : Session) (st : LazyState) (sys t : string)
    (rest : list Block) :
  state (self w) = Some st ->
  globals w !! "system" = Some sys ->
  respond (client (self w)) (calls w ++ [next_request w st sys])
  = Response (mkBlock (Some t) :: rest) ->
  exists w1 st1,
    get_next_step w = (Ok (strip t), w1) /\
    state (self w1) = Some st1 /\
    st1 = add_step st (strip t) /\
    steps st1 = steps st ++ [strip t] /\
    current_step st1 = current_step st + 1 /\
    calls w1 = calls w ++ [next_request w st sys].
Proof.
  intros Hst Hsys Hr. rewrite get_next_step_unfold, Hst, Hsys. cbn zeta.
  rewrite Hr. cbn. eexists _, _. repeat split.
Qed.

Lemma get_next_step_appends_witness :
  exists w1 st1,
    get_next_step (demo_session (Some (mkLazyState "2+2?" ["2+2?"] 0)))
    = (Ok (strip (" PROBLEM DONE" +:+ nl)), w1) /\
    state (self w1) = Some st1 /\
    st1 = add_step (mkLazyState "2+2?" ["2+2?"] 0) (strip (" PROBLEM DONE" +:+ nl)) /\
    steps st1 = ["2+2?"] ++ [strip (" PROBLEM DONE" +:+ nl)] /\
    current_step st1 = 0 + 1 /\
    calls w1 = [] ++ [next_request
                        (demo_session (Some (mkLazyState "2+2?" ["2+2?"] 0)))
                        (mkLazyState "2+2?" ["2+2?"] 0) lazy_system_p].
Proof.
  apply (get_next_step_appends
           (demo_session (Some (mkLazyState "2+2?" ["2+2?"] 0)))
           (mkLazyState "2+2?" ["2+2?"] 0) lazy_system_p
           (" PROBLEM DONE" +:+ nl) []);
    vm_compute; reflexivity.
Defined.

(** C2 fails as stated: the backend's text trims to the sentinel, the call
    returns the sentinel, and the sentinel is now the last of [steps] with
    [current_step] raised to 1. *)
Lemma sentinel_is_appended :
  let w0 := demo_session (Some (mkLazyState "2+2?" ["2+2?"] 0)) in
  respond (client (self w0))
    (calls w0 ++ [next_request w0 (mkLazyState "2+2?" ["2+2?"] 0) lazy_system_p])
  = Response [mkBlock (Some (" PROBLEM DONE" +:+ nl))] /\
  strip (" PROBLEM DONE" +:+ nl) = SENTINEL /\
  fst (get_next_step w0) = Ok SENTINEL /\
  state (self (snd (get_next_step w0)))
  = Some (mkLazyState "2+2?" ["2+2?"; "PROBLEM DONE"] 1).
Proof. vm_compute. repeat split. Qed.


(** C3: in the namespace the exported cells build, where nothing binds
    [system], every construction of a [LazyEvaluationClient] raises
    [NameError] on [system]; the [lazy] entry point raises a [NameError] too
    (on [model] if that name is unbound as well, on [system] otherwise); and
    [get_next_step] on a bound tracker raises it before any request is
    sent. *)
Theorem construction_raises_NameError (imported : gmap string string) :
  imported !! "system" = None ->
  (forall llm mt st,
     LazyEvaluationClient_init (exported_globals imported) llm mt st
     = Raise (NameError "system")) /\
  (forall this p,
     lazy (exported_globals imported) this p
     = Raise (NameError (match exported_globals imported !! "model" with
                         | Some _ => "system"
                         | None => "model"
                         end))) /\
  (forall log c st,
     state c = Some st ->
     get_next_step (mkSession (exported_globals imported) log c)
     = (Raise (NameError "system"), mkSession (exported_globals imported) log c)).
Proof.
  intros Hsys.
  assert (Hg : exported_globals imported !! "system" = None).
  { unfold exported_globals. now rewrite lookup_insert_ne. }
  split; [|split].
  - intros llm mt st. unfold LazyEvaluationClient_init. now rewrite Hg.
  - intros this p. unfold lazy. cbn.
    destruct (exported_globals imported !! "model"); [|reflexivity].
    unfold LazyEvaluationClient_init. now rewrite Hg.
  - intros log c st Hst. rewrite get_next_step_unfold. cbn. now rewrite Hst, Hg.
Qed.

Lemma construction_raises_NameError_witness :
  LazyEvaluationClient_init (exported_globals ∅) (mkLLM done_then_more "claude")
    default_max_tokens (Some (mkLazyState "2+2?" ["2+2?"] 0))
  = Raise (NameError "system").
Proof.
  exact (proj1 (construction_raises_NameError ∅ eq_refl) _ _ _).
Defined.

(** Before a problem is bound: [get_next_step] raises the error of its
    guard, [ask_question] raises [AttributeError]; neither reaches the
    backend nor changes anything. *)
Lemma calls_before_initialization (w : Session) (q : string) :
  state (self w) = None ->
  get_next_step w = (Raise not_initialized, w) /\
  ask_question q w
  = (Raise (AttributeError "'NoneType' object has no attribute 'problem'"), w).
Proof.
  intros H. rewrite get_next_step_unfold, ask_question_unfold, H. now split.
Qed.

(** C5 on a client without a tracker: [get_next_step] raises the
    not-initialized error of its guard, while [ask_question], which has no
    such guard, raises [AttributeError] from reading [self.state.problem];
    both leave the session as it was. *)
Theorem ask_question_uninitialized :
  let w := demo_session None in
  get_next_step w = (Raise not_initialized, w) /\
  ask_question "why?" w
  = (Raise (AttributeError "'NoneType' object has no attribute 'problem'"), w) /\
  fst (ask_question "why?" w) <> Raise not_initialized.
Proof.
  cbv zeta.
  destruct (calls_before_initialization (demo_session None) "why?" eq_refl)
    as [H1 H2].
  rewrite H2. split; [exact H1|]. split; [reflexivity | discriminate].
Qed.

(** One [ask_question] call, whatever its outcome. *)
Lemma ask_question_frame (q : string) (w : Session) :
  let w' := snd (ask_question q w) in
  state (self w') = state (self w) /\
  set_question_history (self w') (question_history (self w)) = self w /\
  globals w' = globals w /\
  exists more, question_history (self w') = question_history (self w) ++ more.
Proof.
  destruct w as [g log [m c mt st sys h]].
  rewrite ask_question_unfold. cbn [self state].
  destruct st as [st|]; [|cbn; repeat split; exists []; now rewrite app_nil_r].
  destruct (index _ _) as [cur|e];
    [|cbn; repeat split; exists []; now rewrite app_nil_r].
  cbn zeta. destruct (respond _ _) as [info|blocks];
    [cbn; repeat split; exists []; now rewrite app_nil_r|].
  destruct (first_text_stripped blocks) as [a|e]; cbn; repeat split; eauto.
Qed.

(** [get_next_step] never touches the question history. *)
Lemma get_next_step_keeps_history (w : Session) :
  question_history (self (snd (get_next_step w))) = question_history (self w).
Proof.
  rewrite get_next_step_unfold.
  destruct (state (self w)) as [st|]; [|reflexivity].
  destruct (globals w !! "system") as [sys|]; [|reflexivity]. cbn zeta.
  destruct (respond _ _) as [info | [|[[t|]] rest]]; reflexivity.
Qed.

Lemma exec_extends_history (c : command) (w : Session) :
  exists more,
    question_history (self (snd (exec c w))) = question_history (self w) ++ more.
Proof.
  destruct c as [|q]; cbn [exec].
  - exists []. now rewrite get_next_step_keeps_history, app_nil_r.
  - apply (ask_question_frame q w).
Qed.

Lemma final_extends_history (cs : list command) (w : Session) :
  exists more,
    question_history (self (final cs w)) = question_history (self w) ++ more.
Proof.
  revert w. induction cs as [|c cs IH]; intros w.
  - exists []. cbn. now rewrite app_nil_r.
  - cbn [final fold_left]. destruct (IH (snd (exec c w))) as [m2 H2].
    destruct (exec_extends_history c w) as [m1 H1].
    exists (m1 ++ m2). unfold final in H2. now rewrite H2, H1, app_assoc.
Qed.

Lemma flat_log_snoc (pairs : list (string * string)) (q a : string) :
  flat_log (pairs ++ [(q, a)]) = flat_log pairs ++ [q; a].
Proof. unfold flat_log. rewrite flat_map_app. cbn. reflexivity. Qed.

(** C6: in every finite interleaving of [get_next_step] and [ask_question]
    calls, run from any session, each [ask_question] call leaves the tracker
    ([steps], [current_step], [problem]) as it found it; of the client's
    attributes it changes [question_history] only, and only by appending. *)
Theorem ask_question_isolation (cs : list command) (w : Session) :
  map cmd (run cs w) = cs /\ Forall ask_frame (run cs w).
Proof.
  revert w. induction cs as [|c cs IH]; intros w; cbn [run].
  - split; [reflexivity | constructor].
  - destruct (exec c w) as [r w'] eqn:E. destruct (IH w') as [Hm Hf].
    split; [cbn; now rewrite Hm|].
    constructor; [|exact Hf].
    unfold ask_frame. cbn [cmd before after].
    destruct c as [|q]; [exact I|].
    cbn [exec] in E. pose proof (ask_question_frame q w) as H.
    rewrite E in H. exact H.
Qed.

(** A call of [ask_question] that returns has logged the question and what
    it returns. *)
Lemma ask_question_returns (w w' : Session) (q a : string) :
  ask_question q w = (Ok a, w') ->
  exists st cur t rest,
    state (self w) = Some st /\
    index (steps st) (current_step st) = Ok cur /\
    respond (client (self w)) (calls w ++ [ask_request w st cur q])
    = Response (mkBlock (Some t) :: rest) /\
    a = strip t /\
    w' = with_self (with_calls w (calls w ++ [ask_request w st cur q]))
           (set_question_history (self w) (question_history (self w) ++ [q; a])).
Proof.
  rewrite ask_question_unfold.
  destruct (state (self w)) as [st|] eqn:Hst; [|discriminate].
  destruct (index _ _) as [cur|e] eqn:Hcur; [|discriminate]. cbn zeta.
  destruct (respond _ _) as [info|blocks] eqn:Hr; [discriminate|].
  destruct (first_text_stripped blocks) as [a'|e] eqn:Ha; [|discriminate].
  intros [= -> <-]. unfold first_text_stripped in Ha.
  destruct blocks as [|[[t|]] rest]; try discriminate.
  injection Ha as <-. now exists st, cur, t, rest.
Qed.

(** Over a run in which every [ask_question] call returns, the history grows
    by the asked pairs, in order. *)
Lemma run_history (cs : list command) (w : Session) :
  Forall ask_returned (run cs w) ->
  question_history (self (final cs w))
  = question_history (self w) ++ flat_log (asked (run cs w)).
Proof.
  revert w. induction cs as [|c cs IH]; intros w; cbn [run].
  - intros _. cbn. now rewrite app_nil_r.
  - unfold final. cbn [fold_left]. fold (final cs (snd (exec c w))).
    destruct (exec c w) as [r w1] eqn:E. cbn [snd].
    intros H. apply Forall_cons in H as [Hev Hrest].
    rewrite (IH w1 Hrest). unfold asked at 2. cbn [flat_map cmd outcome].
    fold (asked (run cs w1)). unfold flat_log at 2. rewrite flat_map_app.
    fold (flat_log (asked (run cs w1))). rewrite app_assoc. f_equal.
    unfold ask_returned in Hev. cbn [cmd outcome] in Hev.
    destruct c as [|q]; cbn [exec] in E.
    + pose proof (get_next_step_keeps_history w) as Hk. rewrite E in Hk.
      cbn [snd] in Hk. rewrite Hk. cbn. now rewrite app_nil_r.
    + destruct r as [a|e]; [|contradiction].
      apply ask_question_returns in E
        as (st & cur & t & rest & _ & _ & _ & _ & ->).
      reflexivity.
Qed.

Lemma flat_log_length (pairs : list (string * string)) :
  length (flat_log pairs) = (2 * length pairs)%nat.
Proof.
  induction pairs as [|qa pairs IH]; [reflexivity|].
  cbn [flat_log flat_map app length] in *. unfold flat_log in IH. lia.
Qed.

(** C9 on a client whose backend answers the first question without any
    content block: [ask_question "q1"] raises after it has appended the
    question alone; [ask_question "q2"] then returns "4" and appends the
    question and the answer. The history is then [q1; q2; 4], which is not
    a sequence of (question, answer) pairs. *)
Theorem ask_question_leaves_lone_question :
  let w0 := session_with silent_then_answer
              (Some (mkLazyState "2+2?" ["2+2?"] 0)) in
  let w1 := snd (ask_question "q1" w0) in
  let w2 := snd (ask_question "q2" w1) in
  fst (ask_question "q1" w0) = Raise (IndexError "list index out of range") /\
  question_history (self w1) = ["q1"] /\
  state (self w1) = state (self w0) /\
  fst (ask_question "q2" w1) = Ok "4" /\
  question_history (self w2) = ["q1"; "q2"; "4"] /\
  forall pairs, flat_log pairs <> question_history (self w2).
Proof.
  cbv zeta.
  assert (H2 : question_history
                 (self (snd (ask_question "q2"
                    (snd (ask_question "q1"
                       (session_with silent_then_answer
                          (Some (mkLazyState "2+2?" ["2+2?"] 0))))))))
               = ["q1"; "q2"; "4"]) by (vm_compute; reflexivity).
  split; [vm_compute; reflexivity|]. split; [vm_compute; reflexivity|].
  split; [vm_compute; reflexivity|]. split; [vm_compute; reflexivity|].
  split; [exact H2|].
  intros pairs Hp. rewrite H2 in Hp.
  apply (f_equal (@length string)) in Hp. rewrite flat_log_length in Hp.
  cbn [length] in Hp. lia.
Qed.

(** X19: a call [ask_question q] that returns [a] has sent one request, [a]
    is the trimmed text of the first content block of the answer, and the
    history has grown by exactly the question followed by [a]; if it was the
    flat form of a sequence of (question, answer) pairs before, it is that
    sequence with the pair [(q, a)] added. Whatever calls follow, the
    history keeps what it holds, and over calls among which every
    [ask_question] returns it grows by their pairs in order. *)
Theorem ask_question_logs_pair (w w' : Session) (q a : string) :
  ask_question q w = (Ok a, w') ->
  question_history (self w') = question_history (self w) ++ [q; a] /\
  (exists st cur t rest,
     state (self w) = Some st /\
     index (steps st) (current_step st) = Ok cur /\
     calls w' = calls w ++ [ask_request w st cur q] /\
     respond (client (self w)) (calls w') = Response (mkBlock (Some t) :: rest) /\
     a = strip t) /\
  (forall pairs,
     question_history (self w) = flat_log pairs ->
     question_history (self w') = flat_log (pairs ++ [(q, a)])) /\
  (forall cs,
     (exists more,
        question_history (self (final cs w')) = question_history (self w') ++ more) /\
     (Forall ask_returned (run cs w') ->
      question_history (self (final cs w'))
      = question_history (self w') ++ flat_log (asked (run cs w')))).
Proof.
  intros H. apply ask_question_returns in H
    as (st & cur & t & rest & Hst & Hcur & Hr & Ha & ->).
  cbn [with_self with_calls self calls question_history set_question_history].
  split; [reflexivity|]. split; [|split].
  - now exists st, cur, t, rest.
  - intros pairs ->. now rewrite flat_log_snoc.
  - intros cs. split; [apply final_extends_history | apply run_history].
Qed.

Lemma ask_question_logs_pair_witness :
  let w := demo_session (Some (mkLazyState "2+2?" ["2+2?"] 0)) in
  question_history (self (snd (ask_question "why?" w)))
  = question_history (self w) ++ ["why?"; "PROBLEM DONE"].
Proof.
  exact (proj1 (ask_question_logs_pair
                  (demo_session (Some (mkLazyState "2+2?" ["2+2?"] 0)))
                  (snd (ask_question "why?"
                          (demo_session (Some (mkLazyState "2+2?" ["2+2?"] 0)))))
                  "why?" "PROBLEM DONE" eq_refl)).
Defined.

End Client.

(** ** White space and indices *)

Section Trimming.

#[local] Arguments String.append !_ _ / : simpl nomatch.

Lemma lstrip_no_leading_space (s : string) : no_leading_space (lstrip s).
Proof.
  induction s as [|a s IH]; cbn; [exact I|].
  destruct (isspace a) eqn:E; [exact IH | exact E].
Qed.

Lemma lstrip_fixed (s : string) : no_leading_space s -> lstrip s = s.
Proof. destruct s as [|a s]; cbn; [reflexivity|]. now intros ->. Qed.

Lemma rstrip_cons (a : ascii) (s : string) :
  isspace a = false -> rstrip (String a s) = String a (rstrip s).
Proof. intros E. cbn. rewrite E. now destruct (rstrip s). Qed.

Lemma rstrip_no_leading_space (s : string) :
  no_leading_space s -> no_leading_space (rstrip s).
Proof.
  destruct s as [|a s]; [intros _; exact I|]. cbn [no_leading_space].
  intros E. now rewrite rstrip_cons.
Qed.

Lemma rstrip_idempotent (s : string) : rstrip (rstrip s) = rstrip s.
Proof.
  induction s as [|a s IH]; [reflexivity|]. cbn [rstrip].
  destruct (rstrip s) as [|b r] eqn:E.
  - destruct (isspace a) eqn:Ea; [reflexivity|]. cbn. now rewrite Ea.
  - change (rstrip (String a (String b r)))
      with (match rstrip (String b r) with
            | "" => if isspace a then "" else String a ""
            | String c r' => String a (String c r')
            end).
    now rewrite IH.
Qed.

Lemma strip_idempotent (s : string) : strip (strip s) = strip s.
Proof.
  unfold strip.
  rewrite (lstrip_fixed (rstrip (lstrip s))).
  - apply rstrip_idempotent.
  - apply rstrip_no_leading_space, lstrip_no_leading_space.
Qed.

Lemma lstrip_padding (pre s : string) :
  all_space pre = true -> lstrip (pre +:+ s) = lstrip s.
Proof.
  induction pre as [|a pre IH]; cbn; [reflexivity|].
  intros [Ea Hp]%andb_prop. rewrite Ea. now apply IH.
Qed.

Lemma lstrip_all_space (post : string) : all_space post = true -> lstrip post = "".
Proof.
  induction post as [|a post IH]; cbn; [reflexivity|].
  intros [Ea Hp]%andb_prop. rewrite Ea. now apply IH.
Qed.

Lemma rstrip_all_space (post : string) : all_space post = true -> rstrip post = "".
Proof.
  induction post as [|a post IH]; cbn; [reflexivity|].
  intros [Ea Hp]%andb_prop. now rewrite (IH Hp), Ea.
Qed.

Lemma rstrip_padding (s post : string) :
  all_space post = true -> rstrip (s +:+ post) = rstrip s.
Proof.
  intros Hp. induction s as [|a s IH]; cbn.
  - now apply rstrip_all_space.
  - now rewrite IH.
Qed.

Lemma strip_fixed_no_leading_space (s : string) :
  strip s = s -> no_leading_space s.
Proof.
  intros <-. unfold strip.
  apply rstrip_no_leading_space, lstrip_no_leading_space.
Qed.

Lemma strip_padding_lemma (pre core post : string) :
  all_space pre = true -> all_space post = true -> strip core = core ->
  strip (pre +:+ core +:+ post) = core.
Proof.
  intros Hpre Hpost Hcore. unfold strip. rewrite lstrip_padding by exact Hpre.
  pose proof (strip_fixed_no_leading_space core Hcore) as Hn.
  destruct core as [|a core].
  - cbn. now rewrite lstrip_all_space.
  - cbn [no_leading_space] in Hn.
    rewrite (lstrip_fixed (String a core +:+ post)) by (cbn; exact Hn).
    rewrite rstrip_padding by exact Hpost.
    unfold strip in Hcore. rewrite lstrip_fixed in Hcore by (cbn; exact Hn).
    exact Hcore.
Qed.

Lemma index_in_range {A : Type} (l : list A) (i : Z) :
  (exists x, index l i = Ok x)
  <-> - Z.of_nat (length l) <= i < Z.of_nat (length l).
Proof.
  unfold index. set (n := Z.of_nat (length l)).
  set (j := if i <? 0 then i + n else i).
  assert (Hj : j = if i <? 0 then i + n else i) by reflexivity.
  assert (Hn : n = Z.of_nat (length l)) by reflexivity.
  clearbody j n.
  destruct ((0 <=? j) && (j <? n)) eqn:E.
  - apply andb_prop in E as [E1 E2].
    apply Z.leb_le in E1. apply Z.ltb_lt in E2.
    destruct (l !! Z.to_nat j) as [x|] eqn:El.
    + split; [intros _ | eauto].
      destruct (Z.ltb_spec i 0); lia.
    + apply lookup_ge_None in El. lia.
  - split; [intros [x Hx]; discriminate Hx|].
    intros H. exfalso. apply andb_false_iff in E.
    destruct (Z.ltb_spec i 0); destruct E as [E|E];
      try apply Z.leb_gt in E; try apply Z.ltb_ge in E; lia.
Qed.

Lemma index_last (l : list string) (x : string) :
  index (l ++ [x]) (Z.of_nat (length l)) = Ok x.
Proof.
  unfold index. rewrite length_app. cbn [length].
  destruct (Z.ltb_spec (Z.of_nat (length l)) 0) as [H|H]; [lia|].
  destruct (Z.leb_spec 0 (Z.of_nat (length l))) as [H0|H0]; [|lia].
  destruct (Z.ltb_spec (Z.of_nat (length l)) (Z.of_nat (length l + 1))) as [H1|H1];
    [|lia].
  cbn [andb]. rewrite Nat2Z.id. now rewrite list_lookup_middle.
Qed.

Lemma index_negative_one (l : list string) (x : string) :
  index (l ++ [x]) (-1) = Ok x.
Proof.
  unfold index. rewrite length_app. cbn [length].
  change (-1 <? 0) with true. cbn iota.
  destruct (Z.leb_spec 0 (-1 + Z.of_nat (length l + 1))) as [H0|H0]; [|lia].
  destruct (Z.ltb_spec (-1 + Z.of_nat (length l + 1)) (Z.of_nat (length l + 1)))
    as [H1|H1]; [|lia].
  cbn [andb]. replace (Z.to_nat (-1 + Z.of_nat (length l + 1))) with (length l) by lia.
  now rewrite list_lookup_middle.
Qed.

End Trimming.

(** ** The tracker under its mutators, and the peek at the current step *)

Section Peek.

Lemma call_tracker_keeps (p : string) (s : LazyState) (c : tracker_call) :
  problem s = p /\ (exists tl, steps s = p :: tl) /\ tracker_wf s ->
  problem (call_tracker s c) = p /\
  (exists tl, steps (call_tracker s c) = p :: tl) /\
  tracker_wf (call_tracker s c).
Proof.
  intros (Hp & [tl Htl] & Hwf). unfold tracker_wf in *.
  destruct c as [step|]; cbn.
  - split; [exact Hp|]. split.
    + exists (tl ++ [step]). now rewrite Htl.
    + rewrite length_app. cbn [length]. lia.
  - rewrite Hp. split; [reflexivity|]. split; [now exists []|reflexivity].
Qed.

Lemma call_tracker_all_keep (p : string) (cs : list tracker_call) (s : LazyState) :
  problem s = p /\ (exists tl, steps s = p :: tl) /\ tracker_wf s ->
  let s' := fold_left call_tracker cs s in
  problem s' = p /\ (exists tl, steps s' = p :: tl) /\ tracker_wf s'.
Proof.
  revert s. induction cs as [|c cs IH]; intros s H; cbn; [exact H|].
  apply IH. now apply call_tracker_keeps.
Qed.

Lemma index_at_current_step (s : LazyState) :
  tracker_wf s -> steps s <> [] ->
  exists earlier x,
    steps s = earlier ++ [x] /\ index (steps s) (current_step s) = Ok x.
Proof.
  unfold tracker_wf. intros Hwf Hne.
  destruct (steps s) as [|y l _] using rev_ind; [contradiction|].
  exists l, y. split; [reflexivity|].
  rewrite length_app in Hwf. cbn [length] in Hwf.
  replace (current_step s) with (Z.of_nat (length l)) by lia.
  apply index_last.
Qed.

Lemma get_current_step_unfold (w : Session) :
  get_current_step w =
  match state (self w) with
  | Some st => (index (steps st) (current_step st), w)
  | None =>
      (Raise (AttributeError "'NoneType' object has no attribute 'steps'"), w)
  end.
Proof.
  unfold get_current_step, mbind, M_bind, get_self, lift, raise.
  now destruct (state (self w)).
Qed.

(** X1: a tracker made by [create p] and then driven by any sequence of
    [add_step] and [refresh] calls keeps [problem = p], keeps [p] as
    [steps[0]], and keeps [current_step] on the last element of [steps], so
    that [steps[current_step]] is always the step recorded last (the problem
    itself right after [create] or [refresh]). *)
Theorem tracker_calls_keep_invariant (p : string) (cs : list tracker_call) :
  exists s0,
    create p = Ok s0 /\
    let s := fold_left call_tracker cs s0 in
    problem s = p /\
    index (steps s) 0 = Ok p /\
    0 <= current_step s /\
    tracker_wf s /\
    exists earlier x,
      steps s = earlier ++ [x] /\ index (steps s) (current_step s) = Ok x.
Proof.
  exists (mkLazyState p [p] 0). split; [reflexivity|]. cbv zeta.
  destruct (call_tracker_all_keep p cs (mkLazyState p [p] 0))
    as (Hp & [tl Htl] & Hwf).
  { split; [reflexivity|]. split; [now exists []|reflexivity]. }
  split; [exact Hp|]. split; [now rewrite Htl|].
  split; [unfold tracker_wf in Hwf; rewrite Htl in Hwf; cbn [length] in Hwf; lia|].
  split; [exact Hwf|].
  apply index_at_current_step; [exact Hwf | now rewrite Htl].
Qed.

(** X2: [get_current_step] only reads. On a bound tracker it returns a step
    exactly when [current_step] lies in [-len(steps), len(steps))]; otherwise
    it raises [IndexError], with the message "list index out of range" for
    an index that fits [Py_ssize_t] and "cannot fit 'int' into an
    index-sized integer" for one that does not. An index of [-1] reads the
    last step. *)
Theorem get_current_step_range (w : Session) (st : LazyState) :
  state (self w) = Some st ->
  snd (get_current_step w) = w /\
  ((exists x, fst (get_current_step w) = Ok x)
   <-> - Z.of_nat (length (steps st)) <= current_step st
       < Z.of_nat (length (steps st))) /\
  (forall e, fst (get_current_step w) = Raise e ->
             e = IndexError
                   (if (- 2 ^ 63 <=? current_step st) && (current_step st <? 2 ^ 63)
                    then "list index out of range"
                    else "cannot fit 'int' into an index-sized integer")) /\
  (forall earlier x,
     steps st = earlier ++ [x] -> current_step st = -1 ->
     fst (get_current_step w) = Ok x).
Proof.
  intros Hst. rewrite get_current_step_unfold, Hst. cbn [fst snd].
  split; [reflexivity|]. split; [apply index_in_range|]. split.
  - unfold index. intros e.
    destruct (_ && _); [destruct (_ !! _)|]; intros [=]; subst; reflexivity.
  - intros earlier x -> ->. apply index_negative_one.
Qed.

Lemma get_current_step_range_witness :
  fst (get_current_step
         (demo_session (Some (mkLazyState "2+2?" ["2+2?"; "Add 2 and 2"] (-1)))))
  = Ok "Add 2 and 2".
Proof.
  exact (proj2 (proj2 (proj2
           (get_current_step_range
              (demo_session (Some (mkLazyState "2+2?" ["2+2?"; "Add 2 and 2"] (-1))))
              (mkLazyState "2+2?" ["2+2?"; "Add 2 and 2"] (-1)) eq_refl)))
           ["2+2?"] "Add 2 and 2" eq_refl eq_refl).
Defined.

(** X3: when [current_step] is on the last element of [steps], a
    [get_next_step] call that returns is followed by a [get_current_step]
    that returns the same text, and changes nothing. *)
Theorem get_current_step_after_next (w w1 : Session) (st : LazyState) (r : string) :
  state (self w) = Some st ->
  tracker_wf st ->
  get_next_step w = (Ok r, w1) ->
  get_current_step w1 = (Ok r, w1).
Proof.
  intros Hst Hwf H. apply get_next_step_returns in H
    as (st' & sys & t & rest & Hst' & _ & _ & _ & ->).
  rewrite Hst in Hst'. injection Hst' as <-.
  rewrite get_current_step_unfold. cbn. f_equal.
  unfold tracker_wf in Hwf. rewrite Hwf. apply index_last.
Qed.

Lemma get_current_step_after_next_witness :
  get_current_step
    (snd (get_next_step (session_with step_then_done
                           (Some (mkLazyState "2+2?" ["2+2?"] 0)))))
  = (Ok "Add 2 and 2",
     snd (get_next_step (session_with step_then_done
                           (Some (mkLazyState "2+2?" ["2+2?"] 0))))).
Proof.
  apply (get_current_step_after_next
           (session_with step_then_done (Some (mkLazyState "2+2?" ["2+2?"] 0)))
           _ (mkLazyState "2+2?" ["2+2?"] 0));
    reflexivity.
Defined.

End Peek.

(** ** Single calls *)

Section Calls.



(** X5: when the backend answers [ask_question]'s request with no content
    block, or with a first block without text, the call raises after it has
    appended the question: the history ends with a question that has no
    answer. The tracker is untouched. *)
Theorem ask_question_reply_without_text (w : Session) (st : LazyState)
    (cur q : string) (blocks : list Block) :
  state (self w) = Some st ->
  index (steps st) (current_step st) = Ok cur ->
  respond (client (self w)) (calls w ++ [ask_request w st cur q])
  = Response blocks ->
  blocks = [] \/ (exists rest, blocks = mkBlock None :: rest) ->
  exists e w',
    ask_question q w = (Raise e, w') /\
    question_history (self w') = question_history (self w) ++ [q] /\
    state (self w') = Some st /\
    calls w' = calls w ++ [ask_request w st cur q].
Proof.
  intros Hst Hcur Hr Hb. rewrite ask_question_unfold, Hst, Hcur. cbn zeta.
  rewrite Hr.
  assert (He : exists e, first_text_stripped blocks = Raise e).
  { destruct Hb as [-> | [rest ->]]; cbn; eauto. }
  destruct He as [e ->]. eexists _, _. split; [reflexivity|].
  cbn. now rewrite Hst.
Qed.

Lemma ask_question_reply_without_text_witness :
  exists e w',
    ask_question "why?" (session_with silent (Some (mkLazyState "2+2?" ["2+2?"] 0)))
    = (Raise e, w') /\
    question_history (self w') = [] ++ ["why?"] /\
    state (self w') = Some (mkLazyState "2+2?" ["2+2?"] 0) /\
    calls w' = [] ++ [ask_request
                        (session_with silent (Some (mkLazyState "2+2?" ["2+2?"] 0)))
                        (mkLazyState "2+2?" ["2+2?"] 0) "2+2?" "why?"].
Proof.
  apply (ask_question_reply_without_text
           (session_with silent (Some (mkLazyState "2+2?" ["2+2?"] 0)))
           (mkLazyState "2+2?" ["2+2?"] 0) "2+2?" "why?" []);
    try reflexivity.
  now left.
Defined.

(** X6: the [lazy] entry point returns a client exactly when both global
    names [model] and [system] are bound. The client then holds a fresh
    tracker for the problem, the two bound texts, the default token ceiling
    and an empty question history; otherwise the [NameError] names the first
    unbound name, [model] before [system]. *)
Theorem lazy_outcome (g : gmap string string) (this : AnthropicVertex)
    (p : string) :
  match lazy g this p with
  | Ok c =>
      g !! "model" = Some (model c) /\ g !! "system" = Some (system c) /\
      client c = this /\ max_tokens c = 100 /\ question_history c = [] /\
      state c = Some (mkLazyState p [p] 0)
  | Raise e =>
      (g !! "model" = None /\ e = NameError "model") \/
      (g !! "model" <> None /\ g !! "system" = None /\ e = NameError "system")
  end.
Proof.
  unfold lazy, LazyEvaluationClient_init. cbn.
  destruct (g !! "model") as [m|]; [|now left].
  destruct (g !! "system") as [sys|]; cbn; [repeat split|].
  right. now repeat split.
Qed.

(** X7: [initalize_problem] always succeeds, binds a fresh tracker for the
    new problem and sends nothing, but it keeps the question history: the
    next [ask_question] still puts the questions and answers of the earlier
    problem into its prompt. *)
Theorem initalize_problem_keeps_history (w : Session) (p q : string) :
  let w1 := snd (initalize_problem p w) in
  fst (initalize_problem p w) = Ok tt /\
  state (self w1) = Some (mkLazyState p [p] 0) /\
  question_history (self w1) = question_history (self w) /\
  calls w1 = calls w /\ globals w1 = globals w /\
  calls (snd (ask_question q w1))
  = calls w ++
    [mkRequest
       (current_state_text (system (self w)) p
          (get_context (mkLazyState p [p] 0)) p)
       (model (self w))
       [mkMessage "user" (prompt_text (question_history (self w)) q)]
       (max_tokens (self w))].
Proof.
  destruct w as [g log [m c mt st sys h]]. cbv zeta.
  unfold initalize_problem, mbind, M_bind, get_self, lift, set_self. cbn.
  repeat split.
  rewrite ask_question_unfold. cbn.
  change (index [p] 0) with (@Ok string p). cbv beta iota zeta.
  destruct (respond c _) as [info|blocks]; [reflexivity|].
  now destruct (first_text_stripped blocks).
Qed.

(** X8: [get_next_step] reads the global name [system] at each call, not
    the text stored at construction: after the name is rebound the request
    carries the new text, and after it is unbound the call raises
    [NameError] before anything is sent. [ask_question] reads no global
    name: it behaves the same under any global namespace. *)
Theorem system_is_read_at_call_time (g g' : gmap string string) (llm : LLM)
    (mt : Z) (st : LazyState) (c : LazyEvaluationClient) (log : list Request) :
  LazyEvaluationClient_init g llm mt (Some st) = Ok c ->
  g !! "system" = Some (system c) /\
  (forall sys',
     g' !! "system" = Some sys' ->
     calls (snd (get_next_step (mkSession g' log c)))
     = log ++ [mkRequest sys' (llm_model llm)
                 [mkMessage "user" (get_context st)] mt]) /\
  (g' !! "system" = None ->
   get_next_step (mkSession g' log c)
   = (Raise (NameError "system"), mkSession g' log c)) /\
  (forall q,
     fst (ask_question q (mkSession g' log c))
     = fst (ask_question q (mkSession g log c)) /\
     self (snd (ask_question q (mkSession g' log c)))
     = self (snd (ask_question q (mkSession g log c))) /\
     calls (snd (ask_question q (mkSession g' log c)))
     = calls (snd (ask_question q (mkSession g log c)))).
Proof.
  unfold LazyEvaluationClient_init.
  destruct (g !! "system") as [sys|] eqn:Hsys; [|discriminate].
  intros [= <-]. split; [reflexivity|]. split; [|split].
  - intros sys' H. rewrite get_next_step_unfold. cbn. rewrite H. cbn.
    destruct (respond _ _) as [info | [|[[t|]] rest]]; reflexivity.
  - intros H. rewrite get_next_step_unfold. cbn. now rewrite H.
  - intros q. rewrite !ask_question_unfold. cbn.
    destruct (index _ _) as [cur|e]; [|now repeat split]. cbn.
    destruct (respond _ _) as [info|blocks]; [now repeat split|].
    destruct (first_text_stripped blocks); now repeat split.
Qed.

Lemma system_is_read_at_call_time_witness :
  get_next_step
    (mkSession ∅ []
       (mkLazyEvaluationClient "claude" done_then_more 100
          (Some (mkLazyState "2+2?" ["2+2?"] 0)) lazy_system_p []))
  = (Raise (NameError "system"),
     mkSession ∅ []
       (mkLazyEvaluationClient "claude" done_then_more 100
          (Some (mkLazyState "2+2?" ["2+2?"] 0)) lazy_system_p [])).
Proof.
  exact (proj1 (proj2 (proj2
           (system_is_read_at_call_time session_globals ∅
              (mkLLM done_then_more "claude") 100
              (mkLazyState "2+2?" ["2+2?"] 0) _ [] eq_refl))) eq_refl).
Defined.

(** X9: what [get_next_step] returns and records is trimmed: trimming it
    again changes nothing and it does not start with white space. *)
Theorem disclosed_step_is_trimmed (w w1 : Session) (r : string) :
  get_next_step w = (Ok r, w1) ->
  strip r = r /\ no_leading_space r /\
  exists st1 earlier, state (self w1) = Some st1 /\ steps st1 = earlier ++ [r].
Proof.
  intros H. apply get_next_step_returns in H
    as (st & sys & t & rest & _ & _ & _ & -> & ->).
  split; [apply strip_idempotent|]. split.
  - apply strip_fixed_no_leading_space, strip_idempotent.
  - now exists (add_step st (strip t)), (steps st).
Qed.

Lemma disclosed_step_is_trimmed_witness :
  strip "PROBLEM DONE" = "PROBLEM DONE".
Proof.
  exact (proj1 (disclosed_step_is_trimmed
                  (demo_session (Some (mkLazyState "2+2?" ["2+2?"] 0)))
                  _ "PROBLEM DONE" eq_refl)).
Defined.

(** X10: white space around the backend's text does not matter: when the
    text is a trimmed text [core] with white space before and after it,
    [get_next_step] returns and records exactly [core]. So a sentinel sent
    with a trailing newline still compares equal to the sentinel. *)
Theorem padded_text_is_recognized (w : Session) (st : LazyState)
    (sys pre core post : string) (rest : list Block) :
  state (self w) = Some st ->
  globals w !! "system" = Some sys ->
  respond (client (self w)) (calls w ++ [next_request w st sys])
  = Response (mkBlock (Some (pre +:+ core +:+ post)) :: rest) ->
  all_space pre = true -> all_space post = true -> strip core = core ->
  fst (get_next_step w) = Ok core /\
  state (self (snd (get_next_step w))) = Some (add_step st core).
Proof.
  intros Hst Hsys Hr Hpre Hpost Hcore.
  rewrite get_next_step_unfold, Hst, Hsys. cbn zeta. rewrite Hr. cbn.
  now rewrite strip_padding_lemma.
Qed.

Lemma padded_text_is_recognized_witness :
  fst (get_next_step (demo_session (Some (mkLazyState "2+2?" ["2+2?"] 0))))
  = Ok SENTINEL /\
  state (self (snd (get_next_step
                      (demo_session (Some (mkLazyState "2+2?" ["2+2?"] 0))))))
  = Some (add_step (mkLazyState "2+2?" ["2+2?"] 0) SENTINEL).
Proof.
  apply (padded_text_is_recognized
           (demo_session (Some (mkLazyState "2+2?" ["2+2?"] 0)))
           (mkLazyState "2+2?" ["2+2?"] 0) lazy_system_p " " SENTINEL nl []);
    vm_compute; reflexivity.
Defined.

End Calls.

(** ** Runs of interleaved calls *)

Section Runs.

Lemma run_cons (c : command) (cs : list command) (w : Session) :
  run (c :: cs) w
  = mkEvent w c (fst (exec c w)) (snd (exec c w)) :: run cs (snd (exec c w)).
Proof. cbn [run]. now destruct (exec c w). Qed.

Lemma final_cons (c : command) (cs : list command) (w : Session) :
  final (c :: cs) w = final cs (snd (exec c w)).
Proof. reflexivity. Qed.

Lemma final_snoc (cs : list command) (c : command) (w : Session) :
  final (cs ++ [c]) w = snd (exec c (final cs w)).
Proof. unfold final. now rewrite fold_left_app. Qed.

(** What one call does to a bound tracker. *)
Lemma exec_tracker (c : command) (w : Session) (st : LazyState) :
  state (self w) = Some st ->
  exists st',
    state (self (snd (exec c w))) = Some st' /\
    problem st' = problem st /\
    steps st' = steps st
                ++ disclosed [mkEvent w c (fst (exec c w)) (snd (exec c w))] /\
    current_step st' - Z.of_nat (length (steps st'))
    = current_step st - Z.of_nat (length (steps st)).
Proof.
  intros Hst. unfold disclosed. cbn [flat_map cmd outcome].
  destruct c as [|q]; cbn [exec].
  - rewrite get_next_step_unfold, Hst.
    destruct (globals w !! "system") as [sys|];
      [|exists st; cbn; now rewrite Hst, !app_nil_r].
    cbn zeta.
    destruct (respond _ _) as [info | [|[[t|]] rest]]; cbn;
      try (exists st; now rewrite Hst, !app_nil_r).
    exists (add_step st (strip t)). cbn. rewrite ?app_nil_r.
    repeat split. rewrite length_app. cbn [length]. lia.
  - destruct (ask_question_frame q w) as (H & _). rewrite H, Hst.
    exists st. destruct (fst (ask_question q w)); cbn; now rewrite !app_nil_r.
Qed.

Lemma run_tracker (cs : list command) (w : Session) (st : LazyState) :
  state (self w) = Some st ->
  exists st',
    state (self (final cs w)) = Some st' /\
    problem st' = problem st /\
    steps st' = steps st ++ disclosed (run cs w) /\
    current_step st' - Z.of_nat (length (steps st'))
    = current_step st - Z.of_nat (length (steps st)).
Proof.
  revert w st. induction cs as [|c cs IH]; intros w st Hst.
  - exists st. cbn. now rewrite app_nil_r.
  - destruct (exec_tracker c w st Hst) as (st1 & H1 & Hp1 & Hs1 & Hc1).
    destruct (IH _ _ H1) as (st2 & H2 & Hp2 & Hs2 & Hc2).
    exists st2. rewrite final_cons, run_cons. split; [exact H2|].
    split; [congruence|]. split; [|lia].
    rewrite Hs2, Hs1. unfold disclosed. cbn [flat_map].
    now rewrite app_nil_r, app_assoc.
Qed.

(** What one call does to the rest of the session. *)
Lemma exec_handle (c : command) (w : Session) :
  let w' := snd (exec c w) in
  globals w' = globals w /\ model (self w') = model (self w) /\
  client (self w') = client (self w) /\
  max_tokens (self w') = max_tokens (self w) /\
  system (self w') = system (self w) /\
  exists more, calls w' = calls w ++ more /\ (length more <= 1)%nat.
Proof.
  assert (Hnone : exists more, calls w = calls w ++ more /\ (length more <= 1)%nat).
  { exists []. rewrite app_nil_r. cbn. split; [reflexivity | lia]. }
  assert (Hone : forall req, exists more,
             calls w ++ [req] = calls w ++ more /\ (length more <= 1)%nat).
  { intros req. exists [req]. cbn. split; [reflexivity | lia]. }
  destruct c as [|q]; cbn [exec]; cbv zeta.
  - rewrite get_next_step_unfold.
    destruct (state (self w)) as [st|]; [|now repeat split].
    destruct (globals w !! "system") as [sys|]; [|now repeat split].
    cbn zeta.
    destruct (respond _ _) as [info | [|[[t|]] rest]]; cbn;
      repeat (split; [reflexivity|]); apply Hone.
  - rewrite ask_question_unfold.
    destruct (state (self w)) as [st|]; [|now repeat split].
    destruct (index _ _) as [cur|e]; [|now repeat split].
    cbn zeta.
    destruct (respond _ _) as [info|blocks];
      [cbn; repeat (split; [reflexivity|]); apply Hone|].
    destruct (first_text_stripped blocks); cbn;
      repeat (split; [reflexivity|]); apply Hone.
Qed.

Lemma exec_uninitialized (c : command) (w : Session) :
  state (self w) = None ->
  exec c w
  = (Raise match c with
           | Next => not_initialized
           | Ask _ => AttributeError "'NoneType' object has no attribute 'problem'"
           end, w).
Proof.
  intros H. destruct c as [|q]; cbn [exec].
  - now rewrite get_next_step_unfold, H.
  - now rewrite ask_question_unfold, H.
Qed.




(** X11: over any run of interleaved calls on a bound tracker, raising calls
    included, [problem] stays, [steps] grows by exactly the texts that the
    [get_next_step] calls returned, in order, and [current_step] grows by
    their number. No step is ever dropped or reordered. *)
Theorem run_steps_are_disclosed (cs : list command) (w : Session)
    (st : LazyState) :
  state (self w) = Some st ->
  exists st',
    state (self (final cs w)) = Some st' /\
    problem st' = problem st /\
    steps st' = steps st ++ disclosed (run cs w) /\
    current_step st'
    = current_step st + Z.of_nat (length (disclosed (run cs w))).
Proof.
  intros Hst. destruct (run_tracker cs w st Hst) as (st' & H & Hp & Hs & Hc).
  exists st'. repeat split; try assumption.
  rewrite Hs, length_app in Hc. lia.
Qed.

Lemma run_steps_are_disclosed_witness :
  exists st',
    state (self (final [Next; Ask "why?"; Next]
                   (session_with step_then_done
                      (Some (mkLazyState "2+2?" ["2+2?"] 0)))))
    = Some st' /\
    problem st' = "2+2?" /\
    steps st' = ["2+2?"] ++ disclosed (run [Next; Ask "why?"; Next]
                   (session_with step_then_done
                      (Some (mkLazyState "2+2?" ["2+2?"] 0)))) /\
    current_step st'
    = 0 + Z.of_nat (length (disclosed (run [Next; Ask "why?"; Next]
                   (session_with step_then_done
                      (Some (mkLazyState "2+2?" ["2+2?"] 0)))))).
Proof.
  apply (run_steps_are_disclosed [Next; Ask "why?"; Next]
           (session_with step_then_done (Some (mkLazyState "2+2?" ["2+2?"] 0)))
           (mkLazyState "2+2?" ["2+2?"] 0)).
  reflexivity.
Defined.

(** X12: over any run, the backend handle, the model name, the token
    ceiling, the stored system text and the globals never change, and the
    backend receives at most one request per call; requests already sent
    stay in the log. *)
Theorem run_sends_at_most_one_request_per_call (cs : list command) (w : Session) :
  globals (final cs w) = globals w /\
  model (self (final cs w)) = model (self w) /\
  client (self (final cs w)) = client (self w) /\
  max_tokens (self (final cs w)) = max_tokens (self w) /\
  system (self (final cs w)) = system (self w) /\
  exists more,
    calls (final cs w) = calls w ++ more /\ (length more <= length cs)%nat.
Proof.
  revert w. induction cs as [|c cs IH]; intros w.
  - cbn. repeat split. exists []. now rewrite app_nil_r.
  - rewrite final_cons.
    destruct (IH (snd (exec c w))) as (Hg & Hm & Hc & Ht & Hs & more2 & Hl & Hn).
    destruct (exec_handle c w) as (Hg1 & Hm1 & Hc1 & Ht1 & Hs1 & more1 & Hl1 & Hn1).
    repeat split; try congruence.
    exists (more1 ++ more2). split.
    + now rewrite Hl, Hl1, app_assoc.
    + rewrite length_app. cbn [length]. lia.
Qed.

(** X13: on a client without a tracker nothing ever happens: in any run every
    call raises ([get_next_step] the error of its guard, [ask_question] an
    [AttributeError]), the session stays exactly as it was and the backend
    is never reached. Only [initalize_problem] leaves that state. *)
Theorem run_uninitialized_is_inert (cs : list command) (w : Session) :
  state (self w) = None ->
  final cs w = w /\
  run cs w
  = map (fun c =>
           mkEvent w c
             (Raise match c with
                    | Next => not_initialized
                    | Ask _ =>
                        AttributeError "'NoneType' object has no attribute 'problem'"
                    end) w) cs.
Proof.
  intros H. induction cs as [|c cs [IH1 IH2]]; [now split|].
  rewrite final_cons, run_cons, exec_uninitialized by exact H. cbn [fst snd map].
  split; [exact IH1 | now rewrite IH2].
Qed.

Lemma run_uninitialized_is_inert_witness :
  final [Next; Ask "why?"; Next] (demo_session None) = demo_session None.
Proof.
  exact (proj1 (run_uninitialized_is_inert [Next; Ask "why?"; Next]
                  (demo_session None) eq_refl)).
Defined.

(** X14: on a client returned by the [lazy] entry point, after any run of
    interleaved calls, [get_current_step] returns the text returned by the
    last successful [get_next_step] call, or the problem itself when there
    was none, and never raises. *)
Theorem peek_is_last_disclosed (g : gmap string string) (this : AnthropicVertex)
    (p : string) (c : LazyEvaluationClient) (log : list Request)
    (cs : list command) :
  lazy g this p = Ok c ->
  let w := final cs (mkSession g log c) in
  exists x,
    last (p :: disclosed (run cs (mkSession g log c))) = Some x /\
    get_current_step w = (Ok x, w).
Proof.
  intros Hl. cbv zeta.
  assert (Hst : state c = Some (mkLazyState p [p] 0)).
  { unfold lazy, LazyEvaluationClient_init in Hl. cbn in Hl.
    destruct (g !! "model"); [|discriminate].
    destruct (g !! "system"); [|discriminate]. now injection Hl as <-. }
  destruct (run_tracker cs (mkSession g log c) _ Hst) as (st' & H & Hp & Hs & Hc).
  cbn [steps current_step length] in Hs, Hc.
  rewrite get_current_step_unfold, H.
  assert (Hwf : tracker_wf st') by (unfold tracker_wf; lia).
  destruct (index_at_current_step st' Hwf) as (earlier & x & He & Hx).
  { rewrite Hs. discriminate. }
  exists x. split; [|now rewrite Hx].
  change (p :: disclosed (run cs (mkSession g log c)))
    with ([p] ++ disclosed (run cs (mkSession g log c))).
  rewrite <- Hs, He. apply last_snoc.
Qed.

Lemma peek_is_last_disclosed_witness :
  exists x,
    last ("2+2?" :: disclosed (run [Next; Ask "why?"]
            (mkSession (<["model" := "claude"]> session_globals) []
               (mkLazyEvaluationClient "claude" step_then_done 100
                  (Some (mkLazyState "2+2?" ["2+2?"] 0)) lazy_system_p []))))
    = Some x /\
    get_current_step
      (final [Next; Ask "why?"]
         (mkSession (<["model" := "claude"]> session_globals) []
            (mkLazyEvaluationClient "claude" step_then_done 100
               (Some (mkLazyState "2+2?" ["2+2?"] 0)) lazy_system_p [])))
    = (Ok x,
       final [Next; Ask "why?"]
         (mkSession (<["model" := "claude"]> session_globals) []
            (mkLazyEvaluationClient "claude" step_then_done 100
               (Some (mkLazyState "2+2?" ["2+2?"] 0)) lazy_system_p []))).
Proof.
  apply (peek_is_last_disclosed (<["model" := "claude"]> session_globals)
           step_then_done "2+2?" _ [] [Next; Ask "why?"]).
  vm_compute. reflexivity.
Defined.

End Runs.

(** ** The driver loops *)

Section Loops.

Lemma run_next_first (cs : list command) (w : Session) :
  disclosed (run (Next :: cs) w)
  = match fst (get_next_step w) with
    | Ok r => [r]
    | Raise _ => []
    end ++ disclosed (run cs (snd (get_next_step w))).
Proof.
  rewrite run_cons. unfold disclosed. cbn [flat_map cmd outcome exec].
  now destruct (fst (get_next_step w)).
Qed.

(** X15: the loop that asks for steps until the sentinel comes back. When
    the first [n] calls of [get_next_step] return texts other than the
    sentinel and the next one returns the sentinel, the loop ends by its
    [break] after exactly [n + 1] calls, whatever larger number of
    iterations is allowed; it has printed the [n] texts and then
    "Problem solved!", and the tracker holds the [n] texts followed by the
    sentinel. *)
Theorem solve_loop_until_done (w : Session) (body : list string) (fuel : nat) :
  map outcome (run (repeat Next (S (length body))) w)
  = map Ok body ++ [Ok SENTINEL] ->
  Forall (fun s => s <> SENTINEL) body ->
  (length body < fuel)%nat ->
  solve_loop fuel w
  = (Some Broke, body ++ ["Problem solved!"],
     final (repeat Next (S (length body))) w) /\
  forall st,
    state (self w) = Some st ->
    exists st',
      state (self (final (repeat Next (S (length body))) w)) = Some st' /\
      steps st' = steps st ++ body ++ [SENTINEL].
Proof.
  intros Hout Hne Hfuel.
  cut (solve_loop fuel w
       = (Some Broke, body ++ ["Problem solved!"],
          final (repeat Next (S (length body))) w) /\
       disclosed (run (repeat Next (S (length body))) w) = body ++ [SENTINEL]).
  { intros [H1 H2]. split; [exact H1|]. intros st Hst.
    destruct (run_tracker (repeat Next (S (length body))) w st Hst)
      as (st' & H & _ & Hs & _).
    exists st'. split; [exact H|]. now rewrite Hs, H2. }
  revert w fuel Hout Hne Hfuel.
  induction body as [|s body IH]; intros w fuel Hout Hne Hfuel.
  - destruct fuel as [|fuel]; [lia|]. cbn [length repeat] in *.
    rewrite run_cons in Hout. cbn [map outcome run exec app] in Hout.
    rewrite run_next_first. cbn [run disclosed flat_map].
    rewrite final_cons. cbn [final fold_left exec solve_loop].
    destruct (get_next_step w) as [r w1]. cbn [fst snd] in *.
    injection Hout as ->. split; reflexivity.
  - destruct fuel as [|fuel]; [cbn in Hfuel; lia|].
    cbn [length] in *. change (repeat Next (S (S (length body))))
      with (Next :: repeat Next (S (length body))) in *.
    rewrite run_cons in Hout. cbn [map outcome exec app] in Hout.
    rewrite run_next_first, final_cons. cbn [exec solve_loop].
    destruct (get_next_step w) as [r w1]. cbn [fst snd] in *.
    injection Hout as -> Hout.
    apply Forall_cons in Hne as [Hs Hne].
    apply String.eqb_neq in Hs. unfold SENTINEL in Hs. rewrite Hs.
    destruct (IH w1 fuel Hout Hne ltac:(lia)) as [-> ->].
    split; reflexivity.
Qed.

Lemma solve_loop_until_done_witness :
  solve_loop 5 (session_with step_then_done (Some (mkLazyState "2+2?" ["2+2?"] 0)))
  = (Some Broke, ["Add 2 and 2"] ++ ["Problem solved!"],
     final (repeat Next 2)
       (session_with step_then_done (Some (mkLazyState "2+2?" ["2+2?"] 0)))).
Proof.
  refine (proj1 _).
  apply (solve_loop_until_done
           (session_with step_then_done (Some (mkLazyState "2+2?" ["2+2?"] 0)))
           ["Add 2 and 2"] 5).
  - vm_compute. reflexivity.
  - repeat constructor. discriminate.
  - cbn. lia.
Defined.


(** X17: the loop that reads commands ignores every line that is not one of
    "next", "n", "question", "q": with only such lines it prints nothing,
    sends nothing and leaves the session as it was. *)
Theorem interactive_loop_ignores_other_input (inputs : list string) (w : Session) :
  Forall (fun x => str_in x ["next"; "n"] = false
                   /\ str_in x ["question"; "q"] = false) inputs ->
  interactive_loop inputs w = (EndOfInput, [], w).
Proof.
  induction 1 as [|x inputs [H1 H2] _ IH]; [reflexivity|].
  cbn [interactive_loop]. now rewrite H1, H2.
Qed.

Lemma interactive_loop_ignores_other_input_witness :
  interactive_loop ["help"; "Next"; ""]
    (demo_session (Some (mkLazyState "2+2?" ["2+2?"] 0)))
  = (EndOfInput, [], demo_session (Some (mkLazyState "2+2?" ["2+2?"] 0))).
Proof.
  apply (interactive_loop_ignores_other_input ["help"; "Next"; ""]).
  repeat constructor.
Defined.

Lemma take_commands_lookup (c : command) (cs : list command) (k : nat)
    (w : Session) :
  final (take (S k) (c :: cs)) w = final (take k cs) (snd (exec c w)).
Proof. reflexivity. Qed.

Lemma run_take_cons (c : command) (cs : list command) (k : nat) (w : Session) :
  run (take (S k) (c :: cs)) w
  = mkEvent w c (fst (exec c w)) (snd (exec c w))
    :: run (take k cs) (snd (exec c w)).
Proof. cbn [take]. apply run_cons. Qed.

(** X18: the loop that reads commands does nothing but the calls its input
    lines ask for, in order: its session is the one reached by running a
    prefix of those calls. It runs them all, each of them going on, when the
    input is used up; it stops at the first [get_next_step] that returns the
    sentinel; it stops at the first call that raises: in both cases every
    call before the last one returned, and no earlier [get_next_step]
    returned the sentinel. So whatever holds of every run of interleaved
    calls holds of this loop. *)
Theorem interactive_loop_refines_run (inputs : list string) (w : Session) :
  exists n,
    (n <= length (commands_of inputs))%nat /\
    snd (interactive_loop inputs w) = final (take n (commands_of inputs)) w /\
    match fst (fst (interactive_loop inputs w)) with
    | EndOfInput =>
        n = length (commands_of inputs) /\
        Forall goes_on (run (take n (commands_of inputs)) w)
    | Broke =>
        exists k,
          n = S k /\ commands_of inputs !! k = Some Next /\
          Forall goes_on (run (take k (commands_of inputs)) w) /\
          fst (get_next_step (final (take k (commands_of inputs)) w))
          = Ok SENTINEL
    | Aborted e =>
        exists k c,
          n = S k /\ commands_of inputs !! k = Some c /\
          Forall goes_on (run (take k (commands_of inputs)) w) /\
          fst (exec c (final (take k (commands_of inputs)) w)) = Raise e
    end.
Proof.
  assert (Hlen : (length inputs <= length inputs)%nat) by lia.
  revert Hlen. generalize (length inputs) at 2. intros bound.
  revert inputs w. induction bound as [|bound IH]; intros inputs w Hlen.
  { destruct inputs; [|cbn in Hlen; lia]. exists 0%nat. cbn.
    repeat split; first [lia | constructor]. }
  destruct inputs as [|x rest];
    [exists 0%nat; cbn; repeat split; first [lia | constructor]|].
  cbn [length] in Hlen. cbn [interactive_loop commands_of].
  destruct (str_in x ["next"; "n"]) eqn:Hnext.
  - destruct (get_next_step w) as [[r|e] w1] eqn:E.
    + destruct (String.eqb r "PROBLEM DONE") eqn:Er.
      * apply String.eqb_eq in Er. subst r. exists 1%nat. cbn [fst snd length].
        split; [lia|]. split; [cbn; now rewrite E|].
        exists 0%nat. cbn. rewrite E. repeat split. constructor.
      * assert (Hgo : goes_on (mkEvent w Next (Ok r) w1)).
        { cbn. now apply String.eqb_neq in Er. }
        destruct (IH rest w1 ltac:(lia)) as (n & Hn & Hw & Hend).
        destruct (interactive_loop rest w1) as [[e' out] w2]. cbn [fst snd] in *.
        exists (S n). cbn [length]. split; [lia|].
        rewrite take_commands_lookup. cbn [exec]. rewrite E. cbn [snd].
        split; [exact Hw|].
        destruct e' as [|e''|].
        -- destruct Hend as (k & -> & Hk & Hf & Hr). exists (S k).
           rewrite take_commands_lookup, run_take_cons. cbn [exec].
           rewrite E. cbn [fst snd]. repeat split; try assumption.
           now constructor.
        -- destruct Hend as (k & c & -> & Hk & Hf & Hr). exists (S k), c.
           rewrite take_commands_lookup, run_take_cons. cbn [exec].
           rewrite E. cbn [fst snd]. repeat split; try assumption.
           now constructor.
        -- destruct Hend as [-> Hf]. split; [reflexivity|].
           rewrite run_take_cons. cbn [exec]. rewrite E. cbn [fst snd].
           now constructor.
    + exists 1%nat. cbn [fst snd length]. split; [lia|].
      split; [cbn; now rewrite E|].
      exists 0%nat, Next. cbn. rewrite E. repeat split. constructor.
  - destruct (str_in x ["question"; "q"]) eqn:Hq.
    + destruct rest as [|q rest];
        [exists 0%nat; cbn; repeat split; first [lia | constructor]|].
      cbn [length] in Hlen.
      destruct (ask_question q w) as [[r|e] w1] eqn:E.
      * assert (Hgo : goes_on (mkEvent w (Ask q) (Ok r) w1)) by exact I.
        destruct (IH rest w1 ltac:(lia)) as (n & Hn & Hw & Hend).
        destruct (interactive_loop rest w1) as [[e' out] w2]. cbn [fst snd] in *.
        exists (S n). cbn [length]. split; [lia|].
        rewrite take_commands_lookup. cbn [exec]. rewrite E. cbn [snd].
        split; [exact Hw|].
        destruct e' as [|e''|].
        -- destruct Hend as (k & -> & Hk & Hf & Hr). exists (S k).
           rewrite take_commands_lookup, run_take_cons. cbn [exec].
           rewrite E. cbn [fst snd]. repeat split; try assumption.
           now constructor.
        -- destruct Hend as (k & c & -> & Hk & Hf & Hr). exists (S k), c.
           rewrite take_commands_lookup, run_take_cons. cbn [exec].
           rewrite E. cbn [fst snd]. repeat split; try assumption.
           now constructor.
        -- destruct Hend as [-> Hf]. split; [reflexivity|].
           rewrite run_take_cons. cbn [exec]. rewrite E. cbn [fst snd].
           now constructor.
      * exists 1%nat. cbn [fst snd length]. split; [lia|].
        split; [cbn; now rewrite E|].
        exists 0%nat, (Ask q). cbn. rewrite E. repeat split. constructor.
    + apply IH. lia.
Qed.

End Loops.
